(** * pytube: the stream-resolution core of [pytube/api.py]

    A shallow embedding of the [YouTube] class of [pytube/api.py] and the
    properties of its JSON boundary scan, stream-map decoder, format
    lookup, cipher wrapper, resolver loop and the [get]/[filter] queries.

    Python values are modelled as follows: [str] as [string], [int] as [Z],
    a decoded JSON document as the inductive [json], the dict of lists built
    by [_parse_stream_map] as a [gmap string (list string)], exceptions as
    the inductive [exn], and a call that may raise as a value of [res]. *)

From Stdlib Require Import ZArith Lia Ascii Permutation.
From stdpp Require Import gmap strings list sorting.

Local Open Scope Z_scope.

(** ** Exceptions and results *)

(** The exception classes that the modelled code raises or lets through.
    [CipherError] carries the exception it was built from (the source
    formats it into the message with [%s]); [OtherError] stands for any
    further subclass of [Exception] raised by a collaborator. *)
Inductive exn : Type :=
| TypeError
| KeyError
| ValueError
| AttributeError
| IndexError
| UnboundLocalError
| YouTubeError (msg : string)
| MultipleObjectsReturned (msg : string)
| CipherError (cause : exn)
| OtherError (name : string).

Inductive res (A : Type) : Type :=
| Return (a : A)
| Raise (e : exn).
Arguments Return {A} a.
Arguments Raise {A} e.

(** ** Python string operations used by the source *)

Module Str.

Definition eqb (a b : string) : bool := String.eqb a b.

(** [len(s)] *)
Definition len (s : string) : Z := Z.of_nat (String.length s).

(** [s.startswith(sub)] *)
Definition startswith (sub s : string) : bool := String.prefix sub s.

Fixpoint drop (n : nat) (s : string) : string :=
  match n, s with
  | O, _ => s
  | S _, EmptyString => EmptyString
  | S k, String _ s' => drop k s'
  end.

Fixpoint take (n : nat) (s : string) : string :=
  match n, s with
  | O, _ => EmptyString
  | S _, EmptyString => EmptyString
  | S k, String c s' => String c (take k s')
  end.

(** The index a slice bound denotes: negative bounds count from the end,
    and the result is clamped to [0 .. len s]. *)
Definition clamp (s : string) (i : Z) : nat :=
  Z.to_nat (Z.min (len s) (if i <? 0 then Z.max 0 (len s + i) else i)).

(** [s[start:]] *)
Definition slice_from (s : string) (start : Z) : string :=
  drop (clamp s start) s.

(** [s[:stop]] *)
Definition slice_to (s : string) (stop : Z) : string :=
  take (clamp s stop) s.

(** [s.find(sub)]: the lowest index at which [sub] occurs, [-1] if none. *)
Fixpoint find_at (sub s : string) (i : Z) : Z :=
  if startswith sub s then i
  else match s with
       | EmptyString => -1
       | String _ s' => find_at sub s' (i + 1)
       end.

Definition find (s sub : string) : Z := find_at sub s 0.

(** [sub in s] *)
Definition contains (sub s : string) : bool := negb (find s sub =? -1).

(** [s.split(sep)] for a one-character separator. *)
Fixpoint split (sep : ascii) (s : string) : list string :=
  match s with
  | EmptyString => [EmptyString]
  | String c s' =>
      if Ascii.eqb c sep then EmptyString :: split sep s'
      else match split sep s' with
           | [] => [String c EmptyString]
           | w :: ws => String c w :: ws
           end
  end.

(** [not s] *)
Definition falsy (s : string) : bool :=
  match s with EmptyString => true | _ => false end.

End Str.

(** ** Decoded JSON documents *)

(** What [json.loads] returns: [JNull] is Python's [None], [JObj] a dict
    (looked up by its first binding of a key), [JArr] a list.  Numbers are
    kept as integers; no path of the modelled code inspects a number beyond
    its truth value. *)
#[warnings="-register-all"]
Inductive json : Type :=
| JNull
| JBool (b : bool)
| JNum (n : Z)
| JStr (s : string)
| JArr (items : list json)
| JObj (fields : list (string * json)).

(** Python truthiness of a decoded document ([if not json_data]). *)
Definition truthy (v : json) : bool :=
  match v with
  | JNull => false
  | JBool b => b
  | JNum n => negb (n =? 0)
  | JStr s => negb (Str.falsy s)
  | JArr items => match items with [] => false | _ => true end
  | JObj fields => match fields with [] => false | _ => true end
  end.

Fixpoint assoc (key : string) (fields : list (string * json)) : option json :=
  match fields with
  | [] => None
  | (k, v) :: rest => if Str.eqb k key then Some v else assoc key rest
  end.

(** [d.get(key, default)]: only a dict has the method. *)
Definition json_get (d : json) (key : string) (default : json) : res json :=
  match d with
  | JObj fields =>
      match assoc key fields with
      | Some v => Return v
      | None => Return default
      end
  | _ => Raise AttributeError
  end.

(** [d[key]] with a string key: a dict raises [KeyError] on a missing key,
    every other decoded value raises [TypeError]. *)
Definition json_index (d : json) (key : string) : res json :=
  match d with
  | JObj fields =>
      match assoc key fields with
      | Some v => Return v
      | None => Raise KeyError
      end
  | _ => Raise TypeError
  end.

(** ** Regular expressions of the source, as scanners *)

Module Re.

Definition is_digit (c : ascii) : bool :=
  let n := N_of_ascii c in ((48 <=? n) && (n <=? 57))%N.

(** The class [[a-zA-Z0-9$]]. *)
Definition is_ident (c : ascii) : bool :=
  let n := N_of_ascii c in
  (((97 <=? n) && (n <=? 122)) || ((65 <=? n) && (n <=? 90))
   || is_digit c || (n =? 36))%N.

(** The longest prefix whose characters satisfy [p], and what follows. *)
Fixpoint span (p : ascii -> bool) (s : string) : string * string :=
  match s with
  | EmptyString => (EmptyString, EmptyString)
  | String c s' =>
      if p c then let '(run, rest) := span p s' in (String c run, rest)
      else (EmptyString, s)
  end.

(** A match of [itag=(\d+)] anchored at the start of [s]: its group. *)
Definition match_itag (s : string) : option string :=
  if Str.startswith "itag=" s then
    let run := fst (span is_digit (Str.drop 5 s)) in
    if Str.falsy run then None else Some run
  else None.

(** [re.findall('itag=(\d+)', text)]: the groups of the successive
    non-overlapping matches, left to right.  [skip] counts the characters
    still covered by the previous match. *)
Fixpoint findall_itag_from (skip : nat) (text : string) : list string :=
  match text with
  | EmptyString => []
  | String _ text' =>
      match skip with
      | S k => findall_itag_from k text'
      | O =>
          match match_itag text with
          | Some run =>
              run :: findall_itag_from (4 + String.length run) text'
          | None => findall_itag_from 0 text'
          end
      end
  end.

Definition findall_itag (text : string) : list string :=
  findall_itag_from 0 text.

(** A match of [\.sig\|\|([a-zA-Z0-9$]+)\(] anchored at the start of [s].
    The class excludes the parenthesis, so only the longest run of class
    characters can be followed by it. *)
Definition match_sig (s : string) : option string :=
  if Str.startswith ".sig||" s then
    let '(name, rest) := span is_ident (Str.drop 6 s) in
    if Str.falsy name then None
    else if Str.startswith "(" rest then Some name else None
  else None.

(** [re.search(r'\.sig\|\|([a-zA-Z0-9$]+)\(', code)]: the group of the
    leftmost match, if any. *)
Fixpoint search_sig (code : string) : option string :=
  match match_sig code with
  | Some name => Some name
  | None =>
      match code with
      | EmptyString => None
      | String _ code' => search_sig code'
      end
  end.

End Re.

(** [int(s)] for a run of decimal digits. *)
Fixpoint int_of_digits (acc : Z) (s : string) : Z :=
  match s with
  | EmptyString => acc
  | String c s' => int_of_digits (10 * acc + (Z.of_N (N_of_ascii c) - 48)) s'
  end.

Definition int (s : string) : Z := int_of_digits 0 s.

(** ** The format catalog *)

(** [YT_ENCODING]: YouTube quality and codecs id map. *)
Definition YT_ENCODING : gmap Z (list string) :=
  list_to_map
    [ (* Flash Video *)
      (5, ["flv"; "240p"; "Sorenson H.263"; "N/A"; "0.25"; "MP3"; "64"]);
      (6, ["flv"; "270p"; "Sorenson H.263"; "N/A"; "0.8"; "MP3"; "64"]);
      (34, ["flv"; "360p"; "H.264"; "Main"; "0.5"; "AAC"; "128"]);
      (35, ["flv"; "480p"; "H.264"; "Main"; "0.8-1"; "AAC"; "128"]);
      (* 3GP *)
      (36, ["3gp"; "240p"; "MPEG-4 Visual"; "Simple"; "0.17"; "AAC"; "38"]);
      (13, ["3gp"; "N/A"; "MPEG-4 Visual"; "N/A"; "0.5"; "AAC"; "N/A"]);
      (17, ["3gp"; "144p"; "MPEG-4 Visual"; "Simple"; "0.05"; "AAC"; "24"]);
      (* MPEG-4 *)
      (18, ["mp4"; "360p"; "H.264"; "Baseline"; "0.5"; "AAC"; "96"]);
      (22, ["mp4"; "720p"; "H.264"; "High"; "2-2.9"; "AAC"; "192"]);
      (37, ["mp4"; "1080p"; "H.264"; "High"; "3-4.3"; "AAC"; "192"]);
      (38, ["mp4"; "3072p"; "H.264"; "High"; "3.5-5"; "AAC"; "192"]);
      (82, ["mp4"; "360p"; "H.264"; "3D"; "0.5"; "AAC"; "96"]);
      (83, ["mp4"; "240p"; "H.264"; "3D"; "0.5"; "AAC"; "96"]);
      (84, ["mp4"; "720p"; "H.264"; "3D"; "2-2.9"; "AAC"; "152"]);
      (85, ["mp4"; "1080p"; "H.264"; "3D"; "2-2.9"; "AAC"; "152"]);
      (* WebM *)
      (43, ["webm"; "360p"; "VP8"; "N/A"; "0.5"; "Vorbis"; "128"]);
      (44, ["webm"; "480p"; "VP8"; "N/A"; "1"; "Vorbis"; "128"]);
      (45, ["webm"; "720p"; "VP8"; "N/A"; "2"; "Vorbis"; "192"]);
      (46, ["webm"; "1080p"; "VP8"; "N/A"; "N/A"; "Vorbis"; "192"]);
      (100, ["webm"; "360p"; "VP8"; "3D"; "N/A"; "Vorbis"; "128"]);
      (101, ["webm"; "360p"; "VP8"; "3D"; "N/A"; "Vorbis"; "192"]);
      (102, ["webm"; "720p"; "VP8"; "3D"; "N/A"; "Vorbis"; "192"]) ].

(** [YT_ENCODING_KEYS]: the keys corresponding to the rows above. *)
Definition YT_ENCODING_KEYS : list string :=
  [ "extension"; "resolution"; "video_codec"; "profile";
    "video_bitrate"; "audio_codec"; "audio_bitrate" ].

(** A keyword dict [dict(zip(YT_ENCODING_KEYS, attr))], in key order. *)
Definition kwargs : Type := list (string * string).

(** [_extract_fmt]: [None] stands for the implicit [return None] taken when
    the text does not hold exactly one [itag=<digits>]; otherwise the pair
    of the identifier and, when the catalog has a non-empty row for it, the
    keyword dict of that row. *)
Definition _extract_fmt (text : string) : option (Z * option kwargs) :=
  let itag := Re.findall_itag text in
  match itag with
  | [digits] =>
      let itag := int digits in
      let attr := YT_ENCODING !! itag in
      match attr with
      | None | Some [] => Some (itag, None)
      | Some attr => Some (itag, Some (zip YT_ENCODING_KEYS attr))
      end
  | _ => None
  end.

(** ** Resolved streams *)

Module Video.

(** Modelled from the spec: the [Video] class of [pytube/models.py],
    which is not part of the sources at hand.  A resolved stream is the
    finalized URL, the file name and the seven format-descriptor
    attributes, each stored under the name of its keyword. *)
Record t : Type := mk {
  url : string;
  filename : string;
  extension : string;
  resolution : string;
  video_codec : string;
  profile : string;
  video_bitrate : string;
  audio_codec : string;
  audio_bitrate : string
}.

Fixpoint kw (key : string) (d : kwargs) : string :=
  match d with
  | [] => EmptyString
  | (k, v) :: rest => if Str.eqb k key then v else kw key rest
  end.

(** Modelled from the spec: [Video(url, filename, **fmt_data)].  Passing
    [None] after [**] is Python's own [TypeError], raised once the
    positional arguments have been evaluated; a keyword dict fills the
    attributes of the same names. *)
Definition new (url filename : string) (fmt_data : option kwargs) : res t :=
  match fmt_data with
  | None => Raise TypeError
  | Some d =>
      Return (mk url filename (kw "extension" d) (kw "resolution" d)
                 (kw "video_codec" d) (kw "profile" d)
                 (kw "video_bitrate" d) (kw "audio_codec" d)
                 (kw "audio_bitrate" d))
  end.

(** Modelled from the spec: the numeric height of a resolution label, the
    number its leading decimal digits write: 720 for ["720p"], and 0 for a
    label without digits such as ["N/A"]. *)
Definition height (label : string) : nat :=
  Z.to_nat (int (fst (Re.span Re.is_digit label))).

(** Modelled from the spec: the comparison behind [self.videos.sort()],
    defined in [pytube/models.py].  The primary key is the numeric height
    of the resolution label, larger first; the secondary key is a fixed
    rank per container extension, smaller first.  The spec does not give
    the ranks, so they are a parameter. *)
Class Order : Type := {
  ext_priority : string -> nat
}.

Definition lt `{Order} (a b : t) : bool :=
  ((height (resolution b) <? height (resolution a))%nat
   || ((height (resolution a) =? height (resolution b))%nat
       && (ext_priority (extension a) <? ext_priority (extension b))%nat)).

(** [list.sort()] is a stable sort driven by [<]: an element ends up
    after the elements smaller than it and before the elements behind it
    in the list that are not smaller. *)
Fixpoint insert `{Order} (v : t) (sorted : list t) : list t :=
  match sorted with
  | [] => [v]
  | w :: rest => if lt w v then w :: insert v rest else v :: w :: rest
  end.

Fixpoint sort `{Order} (l : list t) : list t :=
  match l with
  | [] => []
  | v :: rest => insert v (sort rest)
  end.

End Video.

(** ** The collaborators of the module *)

(** The calls that leave [pytube/api.py]: the HTTP transport, the standard
    JSON and URL decoders, [utils.safe_filename] and [jsinterp]. *)
Class Collaborators : Type := {
  (** [urlopen(self.url)] followed by [response.read().decode("utf-8")];
      [Return None] is a response that tests false. *)
  urlopen_page : option string -> res (option string);
  (** [urlopen(url).read().decode()] *)
  urlopen_script : string -> res string;
  (** [json.loads] *)
  json_loads : string -> res json;
  (** [unquote] *)
  unquote : string -> string;
  (** [safe_filename] *)
  safe_filename : json -> res string;
  (** [str.format] of a decoded value that is not a string *)
  format_value : json -> string;
  (** [JSInterpreter(code)], [jsi.extract_function(name)] and the call of
      the extracted function on a list of arguments *)
  js_interpreter : Type;
  js_function : Type;
  JSInterpreter : string -> res js_interpreter;
  extract_function : js_interpreter -> string -> res js_function;
  call_function : js_function -> list string -> res string
}.

(** ** The [YouTube] class *)

Module YouTube.

(** The instance attributes.  [_js_code] is [None] while it still holds
    its initial [False]; [title] and [videos] exist once
    [_get_video_info] has run. *)
Record state : Type := mk {
  _filename : option string;
  _fmt_values : list Z;
  _video_url : option string;
  _js_code : option string;
  title : json;
  videos : list Video.t
}.

(** [__init__] *)
Definition init : state := mk None [] None None JNull [].

Definition set_filename_attr (f : option string) (self : state) : state :=
  mk f (_fmt_values self) (_video_url self) (_js_code self)
     (title self) (videos self).
Definition set_fmt_values (l : list Z) (self : state) : state :=
  mk (_filename self) l (_video_url self) (_js_code self)
     (title self) (videos self).
Definition set_video_url (u : option string) (self : state) : state :=
  mk (_filename self) (_fmt_values self) u (_js_code self)
     (title self) (videos self).
Definition set_js_code (c : option string) (self : state) : state :=
  mk (_filename self) (_fmt_values self) (_video_url self) c
     (title self) (videos self).
Definition set_title (t : json) (self : state) : state :=
  mk (_filename self) (_fmt_values self) (_video_url self) (_js_code self)
     t (videos self).
Definition set_videos (l : list Video.t) (self : state) : state :=
  mk (_filename self) (_fmt_values self) (_video_url self) (_js_code self)
     (title self) l.

(** A method body: it reads and updates the instance and returns or
    raises. *)
Definition M (A : Type) : Type := state -> res A * state.

Definition ret {A} (a : A) : M A := fun self => (Return a, self).
Definition raise {A} (e : exn) : M A := fun self => (Raise e, self).
Definition lift {A} (r : res A) : M A := fun self => (r, self).
Definition bind {A B} (m : M A) (k : A -> M B) : M B :=
  fun self =>
    match m self with
    | (Return a, self') => k a self'
    | (Raise e, self') => (Raise e, self')
    end.
Definition read {A} (f : state -> A) : M A := fun self => (Return (f self), self).
Definition update (f : state -> state) : M unit := fun self => (Return tt, f self).

Declare Scope py_scope.
Delimit Scope py_scope with py.
Notation "x <- m ;; k" := (bind m (fun x => k))
  (at level 100, m at next level, right associativity) : py_scope.
Notation "m ;; k" := (bind m (fun _ => k))
  (at level 100, right associativity) : py_scope.

(** [not x] for an attribute that holds [None]/[False] or a string. *)
Definition not_ (x : option string) : bool :=
  match x with None => true | Some s => Str.falsy s end.

(** [criterion and field != criterion] *)
Definition differs (criterion : option string) (field : string) : bool :=
  negb (not_ criterion)
  && match criterion with
     | Some c => negb (Str.eqb field c)
     | None => false
     end.

(** One iteration of the loop shared by [get] and [filter]. *)
Definition select (extension resolution profile : option string)
    (result : list Video.t) (v : Video.t) : list Video.t :=
  if differs extension (Video.extension v) then result
  else if differs resolution (Video.resolution v) then result
  else if differs profile (Video.profile v) then result
  else result ++ [v].

(** [get]: [Return None] is the bare [return]. *)
Definition get (self : state) (extension resolution profile : option string)
  : res (option Video.t) :=
  let result := foldl (select extension resolution profile) [] (videos self) in
  if (length result =? 0)%nat then Return None
  else if (length result =? 1)%nat then
    match result !! 0%nat with
    | Some v => Return (Some v)
    | None => Raise IndexError
    end
  else Raise (MultipleObjectsReturned "get() returned more than one object").

(** [filter] *)
Definition filter (self : state) (extension resolution profile : option string)
  : list Video.t :=
  foldl (select extension resolution profile) [] (videos self).

(** [video.filename = filename] *)
Definition with_filename (filename : string) (v : Video.t) : Video.t :=
  Video.mk (Video.url v) filename (Video.extension v) (Video.resolution v)
    (Video.video_codec v) (Video.profile v) (Video.video_bitrate v)
    (Video.audio_codec v) (Video.audio_bitrate v).

(** [set_filename], on an instance whose [videos] exist. *)
Definition set_filename (filename : string) (self : state) : state :=
  let self := set_filename_attr (Some filename) self in
  match videos self with
  | [] => self
  | _ => set_videos (map (with_filename filename) (videos self)) self
  end.

(** *** The JSON boundary scan *)

(** The loop of [_find_json_offset]: [Some i] when it leaves by [break]
    at index [i], [None] when the input is exhausted. *)
Fixpoint scan_brackets (body : string) (bracket_count i : Z) : option Z :=
  match body with
  | EmptyString => None
  | String char rest =>
      if Ascii.eqb char "{" then scan_brackets rest (bracket_count + 1) (i + 1)
      else if Ascii.eqb char "}" then
        let bracket_count := bracket_count - 1 in
        if bracket_count =? 0 then Some i
        else scan_brackets rest bracket_count (i + 1)
      else scan_brackets rest bracket_count (i + 1)
  end.

(** [_find_json_offset] *)
Definition _find_json_offset (body : string) : option Z :=
  let bracket_count := 0 in
  let index := 1 in
  match scan_brackets body bracket_count 0 with
  | None => None
  | Some i => Some (index + i)
  end.

(** The literal marker, of length 18. *)
Definition marker : string := "ytplayer.config = ".

Section Methods.
Context `{Collaborators} `{Video.Order}.
Local Open Scope py_scope.

(** [_get_json_data]: [Return JNull] is [return None]. *)
Definition _get_json_data (body : string) : res json :=
  let start := Str.find body marker + 18 in
  let body := Str.slice_from body start in
  let offset := _find_json_offset body in
  match offset with
  | None => Return JNull
  | Some offset =>
      if offset =? 0 then Return JNull
      else json_loads (Str.slice_to body offset)
  end.

(** *** The stream-map decoder *)

(** The initial [videoinfo] dict. *)
Definition videoinfo0 : gmap string (list string) :=
  list_to_map
    [ ("itag", []); ("url", []); ("quality", []);
      ("fallback_host", []); ("s", []); ("type", []) ].

(** [videoinfo.get(key, []).append(value)]: a key outside the dict
    appends to a list that is dropped. *)
Definition append_value (videoinfo : gmap string (list string))
    (key value : string) : gmap string (list string) :=
  match videoinfo !! key with
  | Some l => <[key := l ++ [value]]> videoinfo
  | None => videoinfo
  end.

(** [key, value = kv.split("=")] and the append; unpacking anything
    but two parts is a [ValueError]. *)
Definition parse_pair (videoinfo : gmap string (list string))
    (kv : string) : res (gmap string (list string)) :=
  match Str.split "=" kv with
  | [key; value] => Return (append_value videoinfo key (unquote value))
  | _ => Raise ValueError
  end.

(** A [for] loop threading an accumulator, left at the first raise. *)
Fixpoint for_each {A B} (f : A -> B -> res A) (acc : A) (l : list B)
  : res A :=
  match l with
  | [] => Return acc
  | x :: rest =>
      match f acc x with
      | Return acc' => for_each f acc' rest
      | Raise e => Raise e
      end
  end.

(** [_parse_stream_map] *)
Definition _parse_stream_map (text : string)
  : res (gmap string (list string)) :=
  let videoinfo := videoinfo0 in
  let videos := Str.split "," text in
  let videos := map (Str.split "&") videos in
  for_each (fun videoinfo video => for_each parse_pair videoinfo video)
           videoinfo videos.

(** *** The cipher wrapper *)

(** The body of the [try] block of [_get_cipher].  [funcname] is bound
    only when the pattern matched, so its first use raises
    [UnboundLocalError] otherwise. *)
Definition cipher_attempt (js_code signature : string) : res string :=
  let mobj := Re.search_sig js_code in
  match JSInterpreter js_code with
  | Raise e => Raise e
  | Return jsi =>
      match mobj with
      | None => Raise UnboundLocalError
      | Some funcname =>
          match extract_function jsi funcname with
          | Raise e => Raise e
          | Return initial_function =>
              call_function initial_function [signature]
          end
      end
  end.

(** [_get_cipher] *)
Definition _get_cipher (signature url : string) : M string :=
  js_code <- read _js_code ;;
  js_code <- (if not_ js_code then
                fetched <- lift (urlopen_script url) ;;
                update (set_js_code (Some fetched)) ;;
                ret fetched
              else ret (default EmptyString js_code)) ;;
  match cipher_attempt js_code signature with
  | Return descrambled => ret descrambled
  | Raise e => raise (CipherError e)
  end.

(** The [filename] property. *)
Definition filename : M string :=
  current <- read _filename ;;
  if not_ current then
    t <- read title ;;
    name <- lift (safe_filename t) ;;
    update (set_filename_attr (Some name)) ;;
    ret name
  else ret (default EmptyString current).

(** *** The resolver *)

(** [text.split] exists on a string only. *)
Definition as_text (v : json) : res string :=
  match v with
  | JStr s => Return s
  | _ => Raise AttributeError
  end.

(** ["http:{}".format(v)] without its prefix. *)
Definition format_js (v : json) : string :=
  match v with
  | JStr s => s
  | _ => format_value v
  end.

(** [d[key]] on the decoded stream map. *)
Definition dict_index (d : gmap string (list string)) (key : string)
  : res (list string) :=
  match d !! key with
  | Some l => Return l
  | None => Raise KeyError
  end.

(** [l[i]] *)
Definition list_index (l : list string) (i : nat) : res string :=
  match l !! i with
  | Some x => Return x
  | None => Raise IndexError
  end.

(** The body of the loop over [enumerate(video_urls)].  The [try]
    covers the call of [_extract_fmt] and the unpacking of its result
    only: unpacking [None] is the [TypeError] that [continue]s. *)
Definition resolve_one (stream_map : gmap string (list string))
    (js_url : string) (i : nat) (url : string) : M unit :=
  match _extract_fmt url with
  | None => ret tt
  | Some (fmt, fmt_data) =>
      url <- (if negb (Str.contains "signature=" url) then
                sigs <- lift (dict_index stream_map "s") ;;
                s <- lift (list_index sigs i) ;;
                signature <- _get_cipher s js_url ;;
                ret (url +:+ "&signature=" +:+ signature)
              else ret url) ;;
      name <- filename ;;
      video <- lift (Video.new url name fmt_data) ;;
      vs <- read videos ;;
      update (set_videos (vs ++ [video])) ;;
      fs <- read _fmt_values ;;
      update (set_fmt_values (fs ++ [fmt]))
  end.

Fixpoint resolve_from (stream_map : gmap string (list string))
    (js_url : string) (i : nat) (video_urls : list string) : M unit :=
  match video_urls with
  | [] => ret tt
  | url :: rest =>
      resolve_one stream_map js_url i url ;;
      resolve_from stream_map js_url (S i) rest
  end.

(** The [for] loop of [_get_video_info] and the final sort. *)
Definition resolve_streams (stream_map : gmap string (list string))
    (js_url : string) : M unit :=
  video_urls <- lift (dict_index stream_map "url") ;;
  resolve_from stream_map js_url 0%nat video_urls ;;
  vs <- read videos ;;
  update (set_videos (Video.sort vs)).

(** [_get_video_info]: [Return (JBool false)] is [return False],
    [Return JNull] the end of the body. *)
Definition _get_video_info : M json :=
  update (set_title JNull) ;;
  update (set_videos []) ;;
  url <- read _video_url ;;
  response <- lift (urlopen_page url) ;;
  match response with
  | None => ret (JBool false)
  | Some body =>
      if Str.contains "og:restrictions:age" body then
        raise (YouTubeError "Unable to fetch age restricted content.")
      else
        json_data <- lift (_get_json_data body) ;;
        if negb (truthy json_data) then
          raise (YouTubeError "Unable to extract json.")
        else
          args <- lift (json_get json_data "args" (JObj [])) ;;
          encoded_stream_map <-
            lift (json_get args "url_encoded_fmt_stream_map" JNull) ;;
          text <- lift (as_text encoded_stream_map) ;;
          stream_map <- lift (_parse_stream_map text) ;;
          args <- lift (json_get json_data "args" (JObj [])) ;;
          t <- lift (json_get args "title" JNull) ;;
          update (set_title t) ;;
          assets <- lift (json_index json_data "assets") ;;
          js <- lift (json_index assets "js") ;;
          let js_url := "http:" +:+ format_js js in
          resolve_streams stream_map js_url ;;
          ret JNull
  end.

(** [from_url]: the body ends without a [return], so the value of
    [_get_video_info] is dropped and the call returns [None]. *)
Definition from_url (url : string) : M json :=
  update (set_video_url (Some url)) ;;
  update (set_filename_attr None) ;;
  _get_video_info ;;
  ret JNull.

End Methods.

End YouTube.

(** ** Notions used to state the properties *)

(** What a character adds to the brace depth. *)
Definition brace (c : ascii) : Z :=
  if Ascii.eqb c "{" then 1 else if Ascii.eqb c "}" then -1 else 0.

(** The brace depth of a text: opening braces minus closing braces. *)
Fixpoint depth (s : string) : Z :=
  match s with
  | EmptyString => 0
  | String c s' => brace c + depth s'
  end.

(** A text that runs from an opening brace to the closing brace at which
    the depth first returns to zero. *)
Definition balanced_fragment (frag : string) : Prop :=
  Str.startswith "{" frag = true
  /\ depth frag = 0
  /\ forall n, (0 < n < String.length frag)%nat -> 0 < depth (Str.take n frag).

(** The depth of the text never returns to zero once it has been
    positive. *)
Definition never_closes (s : string) : Prop :=
  forall m n, (m < n <= String.length s)%nat ->
    0 < depth (Str.take m s) -> depth (Str.take n s) <> 0.

(** The text holds no opening brace. *)
Fixpoint no_opening_brace (s : string) : bool :=
  match s with
  | EmptyString => true
  | String c s' => negb (Ascii.eqb c "{") && no_opening_brace s'
  end.

(** The number of occurrences of a character. *)
Fixpoint count_char (c : ascii) (s : string) : nat :=
  match s with
  | EmptyString => O
  | String a s' => ((if Ascii.eqb a c then 1 else 0) + count_char c s')%nat
  end.

(** The [key=value] pairs of a stream map, record after record. *)
Definition pairs_of (text : string) : list string :=
  concat (map (Str.split "&") (Str.split "," text)).

(** The parts of a pair around its first [=]. *)
Definition key_of (kv : string) : string :=
  hd EmptyString (Str.split "=" kv).
Definition value_of (kv : string) : string :=
  hd EmptyString (tl (Str.split "=" kv)).

Definition carries (key kv : string) : bool := Str.eqb (key_of kv) key.

(** The keys of the decoded stream map. *)
Definition stream_map_keys : list string :=
  [ "itag"; "url"; "quality"; "fallback_host"; "s"; "type" ].

(** All value sequences of a decoded stream map have length [n]. *)
Definition aligned (d : gmap string (list string)) (n : nat) : Prop :=
  forall key l, d !! key = Some l -> length l = n.

(** A stream meets a criterion that is given; a criterion left out, or
    given as a value that tests false, is no filter. *)
Definition meets (criterion : option string) (field : string) : bool :=
  match criterion with
  | None => true
  | Some c => if Str.falsy c then true else Str.eqb field c
  end.

Definition satisfies (extension resolution profile : option string)
    (v : Video.t) : bool :=
  meets extension (Video.extension v)
  && meets resolution (Video.resolution v)
  && meets profile (Video.profile v).

(** The streams of the instance that satisfy all given filters. *)
Definition matching (self : YouTube.state)
    (extension resolution profile : option string) : list Video.t :=
  List.filter (satisfies extension resolution profile) (YouTube.videos self).

(** Every character of the text satisfies [p]. *)
Fixpoint all_chars (p : ascii -> bool) (s : string) : bool :=
  match s with
  | EmptyString => true
  | String c s' => p c && all_chars p s'
  end.

(** The character at index [j] is a closing brace that brings the depth of
    the text read so far to zero. *)
Definition closes_at (s : string) (j : nat) : Prop :=
  String.get j s = Some "}"%char /\ depth (Str.take (S j) s) = 0.

(** The character is no brace. *)
Definition no_brace (c : ascii) : bool :=
  negb (Ascii.eqb c "{") && negb (Ascii.eqb c "}").

(** The seven attributes of a stream, in the order of the catalog rows. *)
Definition descriptor (v : Video.t) : list string :=
  [ Video.extension v; Video.resolution v; Video.video_codec v;
    Video.profile v; Video.video_bitrate v; Video.audio_codec v;
    Video.audio_bitrate v ].

(** The stream carries a row of the catalog. *)
Definition catalogued (v : Video.t) : Prop :=
  exists itag, YT_ENCODING !! itag = Some (descriptor v).

(** The URL holds exactly one [itag=<digits>]. *)
Definition single_itag (url : string) : bool :=
  match _extract_fmt url with Some _ => true | None => false end.

(** The field equals the criterion when one is given that tests true. *)
Definition agrees (criterion : option string) (field : string) : Prop :=
  forall c, criterion = Some c -> c <> EmptyString -> field = c.

(** What [_get_cipher] makes of the outcome of its [try] block. *)
Definition wrapped (attempt : res string) : res string :=
  match attempt with
  | Return descrambled => Return descrambled
  | Raise e => Raise (CipherError e)
  end.

(** The step of the resolver loop that completes the URL of a stream:
    the URL itself when it holds a signature, and otherwise the URL with
    the descrambled signature of the stream's position appended. *)
Definition complete_url `{Collaborators}
    (stream_map : gmap string (list string)) (js_url : string) (i : nat)
    (url : string) : YouTube.M string :=
  if negb (Str.contains "signature=" url) then
    YouTube.bind (YouTube.lift (YouTube.dict_index stream_map "s")) (fun sigs =>
    YouTube.bind (YouTube.lift (YouTube.list_index sigs i)) (fun s =>
    YouTube.bind (YouTube._get_cipher s js_url) (fun signature =>
    YouTube.ret (url +:+ "&signature=" +:+ signature))))
  else YouTube.ret url.

(** The stream list, the format identifiers and the title are the same in
    both states. *)
Definition same_streams (self self' : YouTube.state) : Prop :=
  YouTube.videos self' = YouTube.videos self
  /\ YouTube._fmt_values self' = YouTube._fmt_values self
  /\ YouTube.title self' = YouTube.title self.

(** The URL of the stream holds a signature parameter. *)
Definition signed (v : Video.t) : Prop :=
  Str.contains "signature=" (Video.url v) = true.

(** The instance as [from_url] and [_get_video_info] leave it when they
    stop before the stream map is read. *)
Definition cleared (self : YouTube.state) : YouTube.state :=
  YouTube.set_videos [] (YouTube.set_title JNull self).

(** The file name the instance holds, if it holds one that tests true, is
    what [safe_filename] makes of its title. *)
Definition named_after_title `{Collaborators} (self : YouTube.state) : Prop :=
  forall name, YouTube._filename self = Some name -> Str.falsy name = false ->
    safe_filename (YouTube.title self) = Return name.

(** The stream [v] is what the resolver loop makes of [url]: its URL is
    [url], or [url] with a signature parameter appended, and its attributes
    are the catalog row of the single [itag] that [url] holds. *)
Definition came_from (url : string) (v : Video.t) : Prop :=
  (Video.url v = url
   \/ exists signature, Video.url v = url +:+ "&signature=" +:+ signature)
  /\ exists digits,
       Re.findall_itag url = [digits]
       /\ YT_ENCODING !! int digits = Some (descriptor v).

(** [stream_map] is the stream map that [_get_video_info] decodes from the
    page served for the URL of the instance. *)
Definition page_stream_map `{Collaborators} (self : YouTube.state)
    (stream_map : gmap string (list string)) : Prop :=
  exists body json_data args text,
    urlopen_page (YouTube._video_url self) = Return (Some body)
    /\ YouTube._get_json_data body = Return json_data
    /\ json_get json_data "args" (JObj []) = Return args
    /\ json_get args "url_encoded_fmt_stream_map" JNull = Return (JStr text)
    /\ YouTube._parse_stream_map text = Return stream_map.

(** A criterion that tests false, replaced by its absence. *)
Definition omitted (criterion : option string) : option string :=
  if YouTube.not_ criterion then None else criterion.

(** The order the resolved list is to be in: [a] may stand before [b]. *)
Definition in_order `{Video.Order} (a b : Video.t) : Prop :=
  (Video.height (Video.resolution b) < Video.height (Video.resolution a))%nat
  \/ (Video.height (Video.resolution a) = Video.height (Video.resolution b)
      /\ (Video.ext_priority (Video.extension a)
          <= Video.ext_priority (Video.extension b))%nat).

(** [a] and [b] tie on both keys. *)
Definition ties `{Video.Order} (a b : Video.t) : bool :=
  ((Video.height (Video.resolution a) =? Video.height (Video.resolution b))%nat
   && (Video.ext_priority (Video.extension a)
       =? Video.ext_priority (Video.extension b))%nat).

(** ** A concrete set of collaborators

    Test doubles on which the methods can be run: a percent-decoder for
    [unquote], a one-page transport, a JSON decoder that knows the
    configuration object of that page, and an interpreter whose cipher
    function reverses the signature. *)

Module Demo.

Definition hex (c : ascii) : option N :=
  let n := N_of_ascii c in
  if ((48 <=? n) && (n <=? 57))%N then Some (n - 48)%N
  else if ((65 <=? n) && (n <=? 70))%N then Some (n - 55)%N
  else if ((97 <=? n) && (n <=? 102))%N then Some (n - 87)%N
  else None.

Fixpoint pct_decode (s : string) : string :=
  match s with
  | EmptyString => EmptyString
  | String c s1 =>
      match s1 with
      | String a (String b rest) =>
          if Ascii.eqb c "%" then
            match hex a, hex b with
            | Some x, Some y =>
                String (ascii_of_N (16 * x + y)) (pct_decode rest)
            | _, _ => String c (pct_decode s1)
            end
          else String c (pct_decode s1)
      | _ => String c (pct_decode s1)
      end
  end.

Fixpoint rev_append (s acc : string) : string :=
  match s with
  | EmptyString => acc
  | String c s' => rev_append s' (String c acc)
  end.

Definition dq : string := String (ascii_of_nat 34) EmptyString.
Definition quoted (s : string) : string := dq +:+ s +:+ dq.

(** Two records: format 22 already signed, format 18 with a scrambled
    signature. *)
Definition stream_map_text : string :=
  "itag=22&url=http%3A%2F%2Fh%2Fv%3Fitag%3D22%26signature%3DAB&quality=hd720&fallback_host=f&s=&type=video%2Fmp4,itag=18&url=http%3A%2F%2Fh%2Fv%3Fitag%3D18&quality=medium&fallback_host=f&s=abcde&type=video%2Fmp4".

(** One record whose format identifier the catalog does not know. *)
Definition unknown_format_text : string :=
  "itag=999&url=http%3A%2F%2Fh%2Fv%3Fitag%3D999%26signature%3DAB&quality=hd720&fallback_host=f&s=&type=video%2Fmp4".

(** The configuration object carrying a stream map, as JSON text and
    decoded. *)
Definition config_text (stream_map : string) : string :=
  "{" +:+ quoted "args" +:+ ": {"
      +:+ quoted "url_encoded_fmt_stream_map" +:+ ": " +:+ quoted stream_map +:+ ", "
      +:+ quoted "title" +:+ ": " +:+ quoted "demo" +:+ "}, "
      +:+ quoted "assets" +:+ ": {" +:+ quoted "js" +:+ ": " +:+ quoted "//h/player.js" +:+ "}}".

Definition config (stream_map : string) : json :=
  JObj [ ("args", JObj [ ("url_encoded_fmt_stream_map", JStr stream_map);
                         ("title", JStr "demo") ]);
         ("assets", JObj [ ("js", JStr "//h/player.js") ]) ].

Definition page (stream_map : string) : string :=
  "<html><script>ytplayer.config = " +:+ config_text stream_map
    +:+ ";</script></html>".

(** A page of the same content without the marker: seventeen characters,
    then the configuration object. *)
Definition page_without_marker (stream_map : string) : string :=
  "<!DOCTYPE html>  " +:+ config_text stream_map.

(** A page whose configuration object is cut short. *)
Definition truncated_page : string :=
  "<html><script>ytplayer.config = {{}".

Definition player_script : string := "var f=function(a){return a.sig||zx(a.s)};".

(** The collaborators serving [body] as the page of a video whose stream
    map is [stream_map]. *)
Definition collaborators (stream_map body : string) : Collaborators := {|
  urlopen_page := fun _ => Return (Some body);
  urlopen_script := fun _ => Return player_script;
  json_loads := fun s =>
    if Str.eqb s (config_text stream_map) then Return (config stream_map)
    else Raise ValueError;
  unquote := pct_decode;
  safe_filename := fun t =>
    match t with JStr s => Return s | _ => Raise AttributeError end;
  format_value := fun _ => "None";
  js_interpreter := string;
  js_function := string;
  JSInterpreter := fun code => Return code;
  extract_function := fun _ name => Return name;
  call_function := fun _ args =>
    match args with
    | [s] => Return (rev_append s EmptyString)
    | _ => Raise TypeError
    end
|}.

Definition standard : Collaborators :=
  collaborators stream_map_text (page stream_map_text).

Definition rank (extension : string) : nat :=
  if Str.eqb extension "mp4" then 0
  else if Str.eqb extension "webm" then 1
  else if Str.eqb extension "flv" then 2
  else 3.

Definition order : Video.Order := {|
  Video.ext_priority := rank
|}.

Definition mp4_720 : Video.t :=
  Video.mk "u1" "f" "mp4" "720p" "H.264" "High" "2-2.9" "AAC" "192".
Definition mp4_360 : Video.t :=
  Video.mk "u2" "f" "mp4" "360p" "H.264" "Baseline" "0.5" "AAC" "96".
Definition webm_360 : Video.t :=
  Video.mk "u3" "f" "webm" "360p" "VP8" "N/A" "0.5" "Vorbis" "128".

Definition with_videos (l : list Video.t) : YouTube.state :=
  YouTube.set_videos l YouTube.init.

End Demo.

(** ** Further inputs *)

Module Cases.

(** Three URLs, the second without an [itag], the third unsigned. *)
Definition urls : list string :=
  [ "http://h/v?itag=22&signature=AB"; "http://h/v?id=7";
    "http://h/v?itag=18" ].

Definition stream_map : gmap string (list string) :=
  list_to_map [ ("url", urls); ("s", [EmptyString; EmptyString; "abcde"]) ].

(** Two signed records, the lower resolution first, and a third of the
    same height and extension as the first. *)
Definition low_first_text : string :=
  "itag=18&url=http%3A%2F%2Fh%2Fa%3Fitag%3D18%26signature%3DAB&s=,itag=22&url=http%3A%2F%2Fh%2Fb%3Fitag%3D22%26signature%3DCD&s=,itag=82&url=http%3A%2F%2Fh%2Fc%3Fitag%3D82%26signature%3DEF&s=".

Definition low_first : Collaborators :=
  Demo.collaborators low_first_text (Demo.page low_first_text).

(** One unsigned URL and no signature for it. *)
Definition unsigned_map : gmap string (list string) :=
  list_to_map [ ("url", ["http://h/v?itag=18"]); ("s", []) ].

(** A configuration object without [assets]. *)
Definition config_without_assets : list (string * json) :=
  [ ("args", JObj [ ("url_encoded_fmt_stream_map", JStr "itag=18&url=u");
                    ("title", JStr "demo") ]) ].

(** Collaborators that serve a page with a balanced object and decode it
    to [config_without_assets]. *)
Definition without_assets : Collaborators := {|
  urlopen_page := fun _ => Return (Some "ytplayer.config = {};");
  urlopen_script := fun _ => Return Demo.player_script;
  json_loads := fun _ => Return (JObj config_without_assets);
  unquote := Demo.pct_decode;
  safe_filename := fun t =>
    match t with JStr s => Return s | _ => Raise AttributeError end;
  format_value := fun _ => "None";
  js_interpreter := string;
  js_function := string;
  JSInterpreter := fun code => Return code;
  extract_function := fun _ name => Return name;
  call_function := fun _ args =>
    match args with
    | [s] => Return (Demo.rev_append s EmptyString)
    | _ => Raise TypeError
    end
|}.

End Cases.

(** * Properties *)

(** ** [get] and [filter] *)

Section Queries.

Implicit Types (self : YouTube.state) (v : Video.t).
Implicit Types (extension resolution profile criterion : option string).

Lemma differs_meets criterion field :
  YouTube.differs criterion field = negb (meets criterion field).
Proof.
  destruct criterion as [c|]; [|reflexivity].
  unfold YouTube.differs, meets; simpl.
  destruct (Str.falsy c); simpl; [reflexivity|].
  reflexivity.
Qed.

Lemma select_satisfies extension resolution profile result v :
  YouTube.select extension resolution profile result v
  = if satisfies extension resolution profile v then result ++ [v] else result.
Proof.
  unfold YouTube.select, satisfies. rewrite !differs_meets.
  destruct (meets extension _), (meets resolution _), (meets profile _);
    reflexivity.
Qed.

Lemma loop_selects extension resolution profile (l result : list Video.t) :
  foldl (YouTube.select extension resolution profile) result l
  = result ++ List.filter (satisfies extension resolution profile) l.
Proof.
  revert result; induction l as [|v l IH]; intros result; simpl.
  - now rewrite app_nil_r.
  - rewrite IH, select_satisfies.
    destruct (satisfies extension resolution profile v); [|reflexivity].
    now rewrite <- app_assoc.
Qed.

Lemma filter_matching self extension resolution profile :
  YouTube.filter self extension resolution profile
  = matching self extension resolution profile.
Proof. unfold YouTube.filter, matching. now rewrite loop_selects. Qed.

Lemma get_of_filter self extension resolution profile :
  YouTube.get self extension resolution profile
  = match YouTube.filter self extension resolution profile with
    | [] => Return None
    | [v] => Return (Some v)
    | _ =>
        Raise (MultipleObjectsReturned "get() returned more than one object")
    end.
Proof.
  unfold YouTube.get, YouTube.filter.
  destruct (foldl _ _ _) as [|v [|w rest]]; reflexivity.
Qed.

Lemma meets_omitted criterion field :
  meets (omitted criterion) field = meets criterion field.
Proof.
  destruct criterion as [[|a c]|]; reflexivity.
Qed.

End Queries.

(** C6: on every stream list and for every choice of the three optional
    criteria, [get] returns the absent result when no stream satisfies all
    given filters (so also without filters on the empty list), returns the
    stream when exactly one satisfies them, and raises
    [MultipleObjectsReturned] when two or more do. *)
Theorem get_zero_one_many (self : YouTube.state)
    (extension resolution profile : option string) :
  (matching self extension resolution profile = [] ->
     YouTube.get self extension resolution profile = Return None)
  /\ (forall v, matching self extension resolution profile = [v] ->
        YouTube.get self extension resolution profile = Return (Some v))
  /\ ((2 <= length (matching self extension resolution profile))%nat ->
        exists msg, YouTube.get self extension resolution profile
                    = Raise (MultipleObjectsReturned msg))
  /\ (YouTube.videos self = [] ->
        YouTube.get self None None None = Return None).
Proof.
  rewrite get_of_filter, filter_matching.
  repeat split.
  - now intros ->.
  - now intros v ->.
  - destruct (matching _ _ _ _) as [|v [|w rest]]; simpl; try lia.
    intros _; eauto.
  - intros Hempty. rewrite get_of_filter, filter_matching.
    unfold matching. now rewrite Hempty.
Qed.

(** C9: [get] and [filter] agree on every stream list and criteria: [get]
    returns the absent result exactly when [filter] returns the empty list,
    returns [x] exactly when [filter] returns the one-element list of [x],
    and raises [MultipleObjectsReturned] exactly when [filter] returns two
    or more streams. *)
Theorem get_agrees_with_filter (self : YouTube.state)
    (extension resolution profile : option string) :
  (YouTube.get self extension resolution profile = Return None
     <-> YouTube.filter self extension resolution profile = [])
  /\ (forall x, YouTube.get self extension resolution profile = Return (Some x)
        <-> YouTube.filter self extension resolution profile = [x])
  /\ ((exists msg, YouTube.get self extension resolution profile
                   = Raise (MultipleObjectsReturned msg))
        <-> (2 <= length (YouTube.filter self extension resolution profile))%nat).
Proof.
  rewrite get_of_filter.
  destruct (YouTube.filter _ _ _ _) as [|v [|w rest]]; simpl.
  - repeat split; try easy; try lia. intros [msg Hmsg]; discriminate.
  - repeat split; try easy; try lia.
    + intros [= ->]; reflexivity.
    + intros [= ->]; reflexivity.
    + intros [msg Hmsg]; discriminate.
  - repeat split; try easy; try lia. intros _; eauto.
Qed.

(** C10: in [get] and in [filter] a criterion given as a value that tests
    false ([None] or the empty string) does not constrain the match: with
    an empty-string extension, resolution or profile they select what they
    select when that criterion is left out, and never require the field to
    be the empty string. *)
Theorem falsy_criterion_is_no_filter (self : YouTube.state)
    (extension resolution profile : option string) :
  YouTube.filter self (Some EmptyString) resolution profile
    = YouTube.filter self None resolution profile
  /\ YouTube.filter self extension (Some EmptyString) profile
     = YouTube.filter self extension None profile
  /\ YouTube.filter self extension resolution (Some EmptyString)
     = YouTube.filter self extension resolution None
  /\ YouTube.get self (Some EmptyString) resolution profile
     = YouTube.get self None resolution profile
  /\ YouTube.get self extension (Some EmptyString) profile
     = YouTube.get self extension None profile
  /\ YouTube.get self extension resolution (Some EmptyString)
     = YouTube.get self extension resolution None
  /\ YouTube.filter self extension resolution profile
     = YouTube.filter self (omitted extension) (omitted resolution)
         (omitted profile)
  /\ YouTube.get self extension resolution profile
     = YouTube.get self (omitted extension) (omitted resolution)
         (omitted profile).
Proof.
  assert (Hfilter : YouTube.filter self extension resolution profile
     = YouTube.filter self (omitted extension) (omitted resolution)
         (omitted profile)).
  { rewrite !filter_matching. unfold matching, satisfies.
    apply filter_ext; intros v. now rewrite !meets_omitted. }
  rewrite !get_of_filter, <- Hfilter.
  repeat split; reflexivity.
Qed.

(** ** Strings *)

Section StringFacts.

Implicit Types (s p frag rest : string) (c : ascii).

Lemma length_append s1 s2 :
  String.length (s1 +:+ s2) = (String.length s1 + String.length s2)%nat.
Proof. induction s1 as [|a s1 IH]; simpl; [reflexivity | now rewrite IH]. Qed.

Lemma append_assoc s1 s2 s3 : (s1 +:+ s2) +:+ s3 = s1 +:+ (s2 +:+ s3).
Proof.
  induction s1 as [|a s1 IH]; [reflexivity|].
  change (String a ((s1 +:+ s2) +:+ s3) = String a (s1 +:+ (s2 +:+ s3))).
  now rewrite IH.
Qed.

Lemma append_nil_r s : s +:+ EmptyString = s.
Proof.
  induction s as [|a s IH]; [reflexivity|].
  change (String a (s +:+ EmptyString) = String a s). now rewrite IH.
Qed.

Lemma startswith_cons a sub c s :
  Str.startswith (String a sub) (String c s)
  = if Ascii.eqb a c then Str.startswith sub s else false.
Proof.
  unfold Str.startswith.
  change (String.prefix (String a sub) (String c s))
    with (match ascii_dec a c with
          | left _ => String.prefix sub s
          | right _ => false
          end).
  destruct (ascii_dec a c) as [->|Hne].
  - now rewrite Ascii.eqb_refl.
  - apply Ascii.eqb_neq in Hne. now rewrite Hne.
Qed.

Lemma take_append s1 s2 : Str.take (String.length s1) (s1 +:+ s2) = s1.
Proof. induction s1 as [|a s1 IH]; simpl; [now destruct s2 | now rewrite IH]. Qed.

Lemma take_all s : Str.take (String.length s) s = s.
Proof. induction s as [|a s IH]; simpl; [reflexivity | now rewrite IH]. Qed.

Lemma take_append_le n s1 s2 :
  (n <= String.length s1)%nat -> Str.take n (s1 +:+ s2) = Str.take n s1.
Proof.
  revert n; induction s1 as [|a s1 IH]; intros [|n] Hn; simpl in *;
    try reflexivity; try lia.
  rewrite IH; [reflexivity | lia].
Qed.

Lemma snoc_inv s :
  s <> EmptyString -> exists p c, s = p +:+ String c EmptyString.
Proof.
  induction s as [|a s IH]; [congruence | intros _].
  destruct s as [|b s].
  - exists EmptyString, a; reflexivity.
  - destruct IH as (p & c & Hp); [congruence|].
    exists (String a p), c. rewrite Hp. reflexivity.
Qed.

Lemma depth_cons c s : depth (String c s) = brace c + depth s.
Proof. reflexivity. Qed.

Lemma depth_append s1 s2 : depth (s1 +:+ s2) = depth s1 + depth s2.
Proof.
  induction s1 as [|a s1 IH]; [reflexivity|].
  change (String a s1 +:+ s2) with (String a (s1 +:+ s2)).
  rewrite !depth_cons, IH. lia.
Qed.

Lemma brace_cases c :
  (c = "{"%char /\ brace c = 1) \/ (c = "}"%char /\ brace c = -1)
  \/ (c <> "{"%char /\ c <> "}"%char /\ brace c = 0).
Proof.
  unfold brace.
  destruct (Ascii.eqb_spec c "{"); [now left|].
  destruct (Ascii.eqb_spec c "}"); [now right; left|].
  now right; right.
Qed.

End StringFacts.

(** ** The JSON boundary scan *)

Section Boundary.

Implicit Types (s p frag rest body : string) (c : ascii) (n i : Z).

(** One step of the scan, by what the character adds to the depth. *)
Lemma scan_step c s n i :
  YouTube.scan_brackets (String c s) n i
  = if Ascii.eqb c "}" && (n + brace c =? 0) then Some i
    else YouTube.scan_brackets s (n + brace c) (i + 1).
Proof.
  unfold brace; simpl.
  destruct (Ascii.eqb_spec c "{") as [->|Hopen]; [reflexivity|].
  destruct (Ascii.eqb_spec c "}") as [->|Hclose]; simpl.
  - reflexivity.
  - now rewrite Z.add_0_r.
Qed.

(** The scan passes over a prefix that keeps the depth positive. *)
Lemma scan_prefix p s n i :
  (forall k, (0 < k <= String.length p)%nat -> 0 < n + depth (Str.take k p)) ->
  YouTube.scan_brackets (p +:+ s) n i
  = YouTube.scan_brackets s (n + depth p) (i + Z.of_nat (String.length p)).
Proof.
  revert n i; induction p as [|a p IH]; intros n i Hpos.
  - simpl. now rewrite !Z.add_0_r.
  - change (String a p +:+ s) with (String a (p +:+ s)).
    rewrite scan_step.
    assert (Hfirst : 0 < n + brace a).
    { specialize (Hpos 1%nat). simpl in Hpos.
      rewrite Z.add_0_r in Hpos. apply Hpos. lia. }
    replace (n + brace a =? 0) with false by (symmetry; apply Z.eqb_neq; lia).
    rewrite andb_false_r, IH.
    + rewrite depth_cons. f_equal; simpl String.length; lia.
    + intros k Hk. specialize (Hpos (S k)).
      change (Str.take (S k) (String a p)) with (String a (Str.take k p)) in Hpos.
      rewrite depth_cons in Hpos. simpl String.length in Hpos. lia.
Qed.

(** The scan finds no end when the depth never returns to zero. *)
Lemma scan_never_closes s n i :
  (forall m k, (m < k <= String.length s)%nat ->
     0 < n + depth (Str.take m s) -> n + depth (Str.take k s) <> 0) ->
  YouTube.scan_brackets s n i = None.
Proof.
  revert n i; induction s as [|a s IH]; intros n i Hopen; [reflexivity|].
  rewrite scan_step.
  destruct (Ascii.eqb a "}" && (n + brace a =? 0)) eqn:Hend.
  - apply andb_true_iff in Hend as [Ha Hzero].
    apply Z.eqb_eq in Hzero.
    exfalso. apply (Hopen 0%nat 1%nat); simpl.
    + lia.
    + apply Ascii.eqb_eq in Ha. subst a.
      change (brace "}") with (-1) in Hzero. lia.
    + rewrite Z.add_0_r. exact Hzero.
  - apply IH. intros m k Hk Hm.
    specialize (Hopen (S m) (S k)).
    change (Str.take (S m) (String a s)) with (String a (Str.take m s)) in Hopen.
    change (Str.take (S k) (String a s)) with (String a (Str.take k s)) in Hopen.
    rewrite !depth_cons in Hopen. simpl String.length in Hopen.
    rewrite <- Z.add_assoc. apply Hopen; [lia|].
    rewrite Z.add_assoc. exact Hm.
Qed.

(** Without an opening brace the depth stays below zero. *)
Lemma scan_no_opening_brace s n i :
  no_opening_brace s = true -> n <= 0 -> YouTube.scan_brackets s n i = None.
Proof.
  revert n i; induction s as [|a s IH]; intros n i Hs Hn; [reflexivity|].
  simpl in Hs. apply andb_true_iff in Hs as [Ha Hs].
  rewrite scan_step.
  assert (Hb : brace a <= 0).
  { unfold brace. destruct (Ascii.eqb a "{"); [discriminate|].
    destruct (Ascii.eqb a "}"); lia. }
  destruct (Ascii.eqb_spec a "}") as [->|Hne]; simpl.
  - change (brace "}") with (-1) in *.
    replace (n + -1 =? 0) with false by (symmetry; apply Z.eqb_neq; lia).
    apply IH; [exact Hs | lia].
  - apply IH; [exact Hs | lia].
Qed.

(** The index at which the scan stops lies inside the text. *)
Lemma scan_within s n i j :
  YouTube.scan_brackets s n i = Some j ->
  i <= j < i + Z.of_nat (String.length s).
Proof.
  revert n i; induction s as [|a s IH]; intros n i; [discriminate|].
  rewrite scan_step. simpl String.length.
  destruct (Ascii.eqb a "}" && (n + brace a =? 0)).
  - intros [= ->]. lia.
  - intros Hj. apply IH in Hj. lia.
Qed.

(** A balanced fragment is a prefix of positive depth closed by a
    brace. *)
Lemma balanced_fragment_inv frag :
  balanced_fragment frag ->
  exists p, frag = p +:+ "}" /\ depth p = 1
    /\ forall k, (0 < k <= String.length p)%nat -> 0 < depth (Str.take k p).
Proof.
  intros (Hstart & Hzero & Hpos).
  destruct (snoc_inv frag) as (p & c & ->).
  { intros ->. discriminate. }
  rewrite length_append in Hpos. simpl String.length in Hpos.
  rewrite depth_append, depth_cons in Hzero. simpl in Hzero.
  assert (Hp : forall k, (0 < k <= String.length p)%nat ->
                         0 < depth (Str.take k p)).
  { intros k Hk. rewrite <- (take_append_le k p (String c EmptyString)) by lia.
    apply Hpos. lia. }
  destruct p as [|a p].
  - exfalso.
    change (EmptyString +:+ String c EmptyString)
      with (String c EmptyString) in Hstart.
    rewrite startswith_cons in Hstart.
    destruct (Ascii.eqb_spec "{" c) as [<-|]; [|discriminate].
    change (brace "{") with 1 in Hzero. simpl in Hzero. lia.
  - assert (Hdp : 0 < depth (String a p)).
    { specialize (Hp (String.length (String a p))).
      rewrite take_all in Hp. apply Hp. simpl; lia. }
    exists (String a p).
    destruct (brace_cases c) as [[-> Hb]|[[-> Hb]|(_ & _ & Hb)]];
      rewrite Hb in Hzero; try lia.
    split; [reflexivity|]. split; [lia | exact Hp].
Qed.

End Boundary.

Section Extraction.

Context `{Collaborators} `{Video.Order}.
Implicit Types (s pre frag rest body after : string).

Lemma drop_append s1 s2 : Str.drop (String.length s1) (s1 +:+ s2) = s2.
Proof. induction s1 as [|a s1 IH]; [reflexivity | exact IH]. Qed.

Lemma clamp_inside s (k : nat) :
  (k <= String.length s)%nat -> Str.clamp s (Z.of_nat k) = k.
Proof.
  intros Hk. unfold Str.clamp, Str.len.
  replace (Z.of_nat k <? 0) with false by (symmetry; apply Z.ltb_ge; lia).
  lia.
Qed.

Lemma marker_length : String.length YouTube.marker = 18%nat.
Proof. reflexivity. Qed.

(** The text the scan runs on, when the marker is found at the end of
    [pre]. *)
Lemma slice_after_marker pre after :
  Str.slice_from (pre +:+ YouTube.marker +:+ after) (Str.len pre + 18) = after.
Proof.
  unfold Str.slice_from.
  replace (Str.len pre + 18)
    with (Z.of_nat (String.length (pre +:+ YouTube.marker)))
    by (rewrite length_append, marker_length; unfold Str.len; lia).
  rewrite clamp_inside by (rewrite !length_append; lia).
  rewrite <- append_assoc. apply drop_append.
Qed.

Lemma find_json_offset_fragment frag rest :
  balanced_fragment frag ->
  YouTube._find_json_offset (frag +:+ rest)
  = Some (Z.of_nat (String.length frag)).
Proof.
  intros Hfrag. apply balanced_fragment_inv in Hfrag as (p & -> & Hone & Hpos).
  unfold YouTube._find_json_offset.
  rewrite append_assoc, scan_prefix by (intros k Hk; specialize (Hpos k Hk); lia).
  change ("}" +:+ rest) with (String "}" rest).
  rewrite scan_step, Hone. simpl.
  rewrite length_append. simpl String.length. f_equal. lia.
Qed.

Lemma find_json_offset_never_closes s :
  never_closes s -> YouTube._find_json_offset s = None.
Proof.
  intros Hs. unfold YouTube._find_json_offset.
  now rewrite scan_never_closes by (intros m k Hk Hm; apply (Hs m k Hk Hm)).
Qed.

(** [_get_video_info] turns a configuration object that tests false into
    a [YouTubeError]. *)
Lemma get_video_info_without_json self body v :
  urlopen_page (YouTube._video_url self) = Return (Some body) ->
  YouTube._get_json_data body = Return v ->
  truthy v = false ->
  exists msg, fst (YouTube._get_video_info self) = Raise (YouTubeError msg).
Proof.
  intros Hpage Hjson Hfalse.
  unfold YouTube._get_video_info, YouTube.bind, YouTube.update, YouTube.read,
    YouTube.lift, YouTube.raise; simpl.
  rewrite Hpage.
  destruct (Str.contains _ body); [eauto|].
  rewrite Hjson, Hfalse; simpl. eauto.
Qed.

(** C3: when the marker is found in the page and the text right after it
    starts with a balanced-brace fragment, the extractor hands exactly
    that fragment, from the opening brace to the closing brace at which
    the depth first returns to zero, to the JSON decoder; when the depth
    of the text after the marker never returns to zero, the extractor
    returns [None] without decoding any part of the text, and
    [_get_video_info] raises [YouTubeError]. *)
Theorem json_boundary_extraction pre after :
  let body := pre +:+ YouTube.marker +:+ after in
  Str.find body YouTube.marker = Str.len pre ->
  (forall frag rest, after = frag +:+ rest -> balanced_fragment frag ->
     YouTube._get_json_data body = json_loads frag)
  /\ (never_closes after ->
        YouTube._find_json_offset after = None
        /\ YouTube._get_json_data body = Return JNull
        /\ forall self,
             urlopen_page (YouTube._video_url self) = Return (Some body) ->
             exists msg,
               fst (YouTube._get_video_info self) = Raise (YouTubeError msg)).
Proof.
  intros body Hfind.
  assert (Hafter : Str.slice_from body (Str.find body YouTube.marker + 18)
                   = after).
  { rewrite Hfind. apply slice_after_marker. }
  split.
  - intros frag rest -> Hfrag.
    unfold YouTube._get_json_data. fold body. rewrite Hafter.
    rewrite find_json_offset_fragment by exact Hfrag.
    assert (Hlen : (0 < String.length frag)%nat).
    { destruct Hfrag as (Hstart & _). destruct frag; [discriminate | simpl; lia]. }
    replace (Z.of_nat (String.length frag) =? 0) with false
      by (symmetry; apply Z.eqb_neq; lia).
    unfold Str.slice_to.
    rewrite clamp_inside by (rewrite length_append; lia).
    now rewrite take_append.
  - intros Hopen.
    assert (Hnone : YouTube._find_json_offset after = None)
      by now apply find_json_offset_never_closes.
    assert (Hjson : YouTube._get_json_data body = Return JNull).
    { unfold YouTube._get_json_data. fold body. now rewrite Hafter, Hnone. }
    repeat split; [exact Hnone | exact Hjson |].
    intros self Hpage.
    now apply (get_video_info_without_json self body JNull).
Qed.

End Extraction.

Lemma json_boundary_extraction_witness :
  @YouTube._get_json_data Demo.standard
     "<html><script>ytplayer.config = {a{b}c};</script>"
   = @json_loads Demo.standard "{a{b}c}"
  /\ @YouTube._get_json_data Demo.standard Demo.truncated_page = Return JNull.
Proof.
  split.
  - apply (proj1 (@json_boundary_extraction Demo.standard Demo.order
                    "<html><script>" "{a{b}c};</script>" eq_refl)
             "{a{b}c}" ";</script>" eq_refl).
    repeat split.
    intros n Hn. simpl in Hn.
    do 7 (destruct n as [|n]; [vm_compute; first [reflexivity | lia]|]).
    lia.
  - apply (proj2 (@json_boundary_extraction Demo.standard Demo.order
                    "<html><script>" "{{}" eq_refl)).
    intros m n Hn _. simpl in Hn.
    do 4 (destruct n as [|n]; [vm_compute; first [discriminate | lia]|]).
    lia.
Defined.

(** C4: a page without the marker is not rejected.  [find] returns [-1],
    the scan starts at index 17, and the balanced fragment found there is
    handed to the JSON decoder; on this page the whole resolution then
    completes.  The scan itself never leaves the text: an offset it returns
    is at most the length of the text, and it returns none when no opening
    brace is there. *)
Theorem page_without_marker_is_resolved :
  let body := Demo.page_without_marker Demo.stream_map_text in
  Str.find body YouTube.marker = -1
  /\ (forall C : Collaborators,
        @YouTube._get_json_data C body
        = @json_loads C (Demo.config_text Demo.stream_map_text))
  /\ fst (@YouTube.from_url (Demo.collaborators Demo.stream_map_text body)
            Demo.order "http://yt/watch?v=1" YouTube.init)
     = Return JNull
  /\ (forall s k, YouTube._find_json_offset s = Some k -> 1 <= k <= Str.len s)
  /\ (forall s, no_opening_brace s = true -> YouTube._find_json_offset s = None).
Proof.
  intros body. split; [vm_compute; reflexivity|].
  split; [intros C; vm_compute; reflexivity|].
  split; [vm_compute; reflexivity|].
  split.
  - intros s k. unfold YouTube._find_json_offset.
    destruct (YouTube.scan_brackets s 0 0) as [j|] eqn:Hj; [|discriminate].
    intros [= <-]. apply scan_within in Hj. unfold Str.len. lia.
  - intros s Hs. unfold YouTube._find_json_offset.
    now rewrite scan_no_opening_brace.
Qed.

(** ** The cipher wrapper *)

Section Cipher.

Context `{Collaborators}.

(** C5: once the player script is at hand, whatever is raised while the
    transform function is located, compiled or executed leaves
    [_get_cipher] as a [CipherError] built from that exception, and
    nothing else is raised; when the locator pattern has no match the
    function name is never used and the call raises [CipherError]. *)
Theorem cipher_failures_are_wrapped (self : YouTube.state)
    (signature url js_code : string) :
  (if YouTube.not_ (YouTube._js_code self) then urlopen_script url
   else Return (default EmptyString (YouTube._js_code self)))
  = Return js_code ->
  let outcome := fst (YouTube._get_cipher signature url self) in
  (forall e, outcome = Raise e ->
     exists cause, e = CipherError cause
                   /\ YouTube.cipher_attempt js_code signature = Raise cause)
  /\ (forall cause, JSInterpreter js_code = Raise cause ->
        outcome = Raise (CipherError cause))
  /\ (forall jsi, JSInterpreter js_code = Return jsi ->
        Re.search_sig js_code = None ->
        outcome = Raise (CipherError UnboundLocalError))
  /\ (forall jsi funcname cause, JSInterpreter js_code = Return jsi ->
        Re.search_sig js_code = Some funcname ->
        extract_function jsi funcname = Raise cause ->
        outcome = Raise (CipherError cause))
  /\ (forall jsi funcname f cause, JSInterpreter js_code = Return jsi ->
        Re.search_sig js_code = Some funcname ->
        extract_function jsi funcname = Return f ->
        call_function f [signature] = Raise cause ->
        outcome = Raise (CipherError cause))
  /\ (forall jsi funcname f descrambled, JSInterpreter js_code = Return jsi ->
        Re.search_sig js_code = Some funcname ->
        extract_function jsi funcname = Return f ->
        call_function f [signature] = Return descrambled ->
        outcome = Return descrambled).
Proof.
  intros Hcode outcome.
  assert (Houtcome : outcome
    = match YouTube.cipher_attempt js_code signature with
      | Return descrambled => Return descrambled
      | Raise e => Raise (CipherError e)
      end).
  { unfold outcome, YouTube._get_cipher, YouTube.bind, YouTube.read,
      YouTube.lift, YouTube.update, YouTube.ret, YouTube.raise; simpl.
    destruct (YouTube.not_ (YouTube._js_code self)); simpl.
    - rewrite Hcode; simpl.
      now destruct (YouTube.cipher_attempt js_code signature).
    - injection Hcode as ->.
      now destruct (YouTube.cipher_attempt js_code signature). }
  rewrite Houtcome. unfold YouTube.cipher_attempt.
  repeat split.
  - intros e.
    destruct (JSInterpreter js_code) as [jsi|c]; [|intros [= <-]; eauto].
    destruct (Re.search_sig js_code) as [funcname|]; [|intros [= <-]; eauto].
    destruct (extract_function jsi funcname) as [f|c]; [|intros [= <-]; eauto].
    destruct (call_function f [signature]) as [v|c]; [discriminate|].
    intros [= <-]; eauto.
  - now intros cause ->.
  - now intros jsi -> ->.
  - now intros jsi funcname cause -> -> ->.
  - now intros jsi funcname f cause -> -> -> ->.
  - now intros jsi funcname f v -> -> -> ->.
Qed.

End Cipher.

Lemma cipher_failures_are_wrapped_witness :
  fst (@YouTube._get_cipher Demo.standard "abcde" "http://h/player.js"
         (YouTube.set_js_code (Some "var a=1;") YouTube.init))
  = Raise (CipherError UnboundLocalError).
Proof.
  apply (proj1 (proj2 (proj2
           (@cipher_failures_are_wrapped Demo.standard
              (YouTube.set_js_code (Some "var a=1;") YouTube.init)
              "abcde" "http://h/player.js" "var a=1;" eq_refl)))
           "var a=1;" eq_refl eq_refl).
Defined.

(** ** The order of the resolved list *)

Section Ordering.

Context `{Video.Order}.
Implicit Types (a b v w : Video.t) (l : list Video.t).

Lemma lt_false_in_order a b : Video.lt b a = false <-> in_order a b.
Proof.
  unfold Video.lt, in_order.
  rewrite orb_false_iff, andb_false_iff, !Nat.ltb_ge, Nat.eqb_neq. lia.
Qed.

Lemma lt_true_in_order a b : Video.lt a b = true -> in_order a b.
Proof.
  unfold Video.lt, in_order.
  rewrite orb_true_iff, andb_true_iff, !Nat.ltb_lt, Nat.eqb_eq. lia.
Qed.

Lemma in_order_trans a b c : in_order a b -> in_order b c -> in_order a c.
Proof. unfold in_order. lia. Qed.

Lemma in_order_total a b : in_order a b \/ in_order b a.
Proof. unfold in_order. lia. Qed.

Lemma ties_lt a v w : ties a v = true -> Video.lt w v = true -> ties a w = false.
Proof.
  unfold ties, Video.lt.
  rewrite andb_true_iff, orb_true_iff, andb_true_iff, andb_false_iff,
    !Nat.eqb_eq, !Nat.ltb_lt, !Nat.eqb_neq. lia.
Qed.

Lemma Forall_insert (P : Video.t -> Prop) v l :
  P v -> Forall P l -> Forall P (Video.insert v l).
Proof.
  intros Hv Hl; induction Hl as [|w l Hw Hl IH]; simpl.
  - now constructor.
  - destruct (Video.lt w v); repeat constructor; assumption.
Qed.

Lemma insert_sorted v l :
  StronglySorted in_order l -> StronglySorted in_order (Video.insert v l).
Proof.
  induction 1 as [|w l Hl IH Hw]; simpl.
  - repeat constructor.
  - destruct (Video.lt w v) eqn:Hlt.
    + constructor; [exact IH|].
      apply Forall_insert; [now apply lt_true_in_order | exact Hw].
    + apply lt_false_in_order in Hlt.
      constructor; [now constructor|].
      constructor; [exact Hlt|].
      eapply Forall_impl; [exact Hw|].
      intros x Hx. now apply (in_order_trans v w x).
Qed.

Lemma sort_sorted l : StronglySorted in_order (Video.sort l).
Proof.
  induction l as [|v l IH]; simpl; [constructor | now apply insert_sorted].
Qed.

Lemma insert_permutation v l : Permutation (v :: l) (Video.insert v l).
Proof.
  induction l as [|w l IH]; simpl; [reflexivity|].
  destruct (Video.lt w v); [|reflexivity].
  rewrite perm_swap. now constructor.
Qed.

Lemma sort_permutation l : Permutation l (Video.sort l).
Proof.
  induction l as [|v l IH]; simpl; [constructor|].
  rewrite <- insert_permutation. now constructor.
Qed.

Lemma insert_ties a v l :
  List.filter (ties a) (Video.insert v l)
  = List.filter (ties a) (v :: l).
Proof.
  induction l as [|w l IH]; [reflexivity|].
  simpl Video.insert. destruct (Video.lt w v) eqn:Hlt; [|reflexivity].
  simpl List.filter in *. rewrite IH.
  destruct (ties a v) eqn:Hv; [|reflexivity].
  now rewrite (ties_lt a v w Hv Hlt).
Qed.

(** The sort keeps the streams that tie on both keys in the order they
    had. *)
Lemma sort_stable a l :
  List.filter (ties a) (Video.sort l) = List.filter (ties a) l.
Proof.
  induction l as [|v l IH]; [reflexivity|].
  simpl Video.sort. rewrite insert_ties. simpl. now rewrite IH.
Qed.

Lemma sorted_head_best v l w :
  StronglySorted in_order (v :: l) -> In w (v :: l) ->
  (Video.height (Video.resolution w) <= Video.height (Video.resolution v))%nat.
Proof.
  intros Hsorted [<-|Hw]; [lia|].
  apply StronglySorted_inv in Hsorted as [_ Hall].
  rewrite Forall_forall in Hall. apply list_elem_of_In in Hw.
  specialize (Hall w Hw). unfold in_order in Hall. lia.
Qed.

End Ordering.

(** ** The resolver *)

Section Resolver.

Context `{Collaborators} `{Video.Order}.
Implicit Types (self : YouTube.state) (url : string) (urls : list string).
Implicit Types (stream_map : gmap string (list string)).

Lemma bind_raise {A B} (m : YouTube.M A) (k : A -> YouTube.M B) self e :
  fst (m self) = Raise e -> fst (YouTube.bind m k self) = Raise e.
Proof.
  unfold YouTube.bind. destruct (m self) as [[a|e'] self']; simpl; congruence.
Qed.

Lemma bind_return {A B} (m : YouTube.M A) (k : A -> YouTube.M B) self a self' :
  m self = (Return a, self') -> YouTube.bind m k self = k a self'.
Proof. unfold YouTube.bind. now intros ->. Qed.

Lemma bind_inv {A B} (m : YouTube.M A) (k : A -> YouTube.M B) self b self'' :
  YouTube.bind m k self = (Return b, self'') ->
  exists a self', m self = (Return a, self') /\ k a self' = (Return b, self'').
Proof.
  unfold YouTube.bind. destruct (m self) as [[a|e] self']; [eauto | discriminate].
Qed.

(** A stream whose identifier the catalog does not know. *)
Lemma extract_fmt_unknown url digits :
  Re.findall_itag url = [digits] ->
  YT_ENCODING !! int digits = None ->
  _extract_fmt url = Some (int digits, None).
Proof. unfold _extract_fmt. now intros -> ->. Qed.

(** Such a stream gets past the [try]: the iteration raises, when
    nothing did before, at the call of [Video]. *)
Lemma resolve_one_unknown stream_map js_url i url fmt self :
  _extract_fmt url = Some (fmt, None) ->
  exists e, fst (YouTube.resolve_one stream_map js_url i url self) = Raise e.
Proof.
  intros Hfmt. unfold YouTube.resolve_one. rewrite Hfmt.
  unfold YouTube.bind at 1.
  match goal with |- context [match ?m self with _ => _ end] =>
    destruct (m self) as [[u|e] s1] end; [|simpl; eauto].
  unfold YouTube.bind at 1.
  destruct (YouTube.filename s1) as [[name|e] s2]; [|simpl; eauto].
  simpl. eauto.
Qed.

Lemma resolve_from_unknown stream_map js_url urls url fmt :
  In url urls -> _extract_fmt url = Some (fmt, None) ->
  forall i self,
    exists e, fst (YouTube.resolve_from stream_map js_url i urls self) = Raise e.
Proof.
  intros Hin Hfmt. induction urls as [|u urls IH]; [destruct Hin|].
  intros i self. simpl YouTube.resolve_from.
  destruct (YouTube.resolve_one stream_map js_url i u self) as [[[]|e] s1] eqn:Hone.
  - rewrite (bind_return _ _ _ _ _ Hone).
    destruct Hin as [->|Hin]; [|now apply IH].
    destruct (resolve_one_unknown stream_map js_url i url fmt self Hfmt) as [e He].
    rewrite Hone in He. discriminate.
  - exists e. apply bind_raise. now rewrite Hone.
Qed.

(** C1: a stream whose format identifier is not in the catalog is not
    skipped.  When the decoded stream map lists a URL that carries exactly
    one [itag] and the catalog has no row for it, the resolver loop
    raises, and with it the whole resolution. *)
Theorem unknown_format_aborts_resolution stream_map js_url self urls url digits :
  stream_map !! "url" = Some urls ->
  In url urls ->
  Re.findall_itag url = [digits] ->
  YT_ENCODING !! int digits = None ->
  exists e, fst (YouTube.resolve_streams stream_map js_url self) = Raise e.
Proof.
  intros Hurls Hin Hitag Hmiss.
  unfold YouTube.resolve_streams, YouTube.dict_index. rewrite Hurls.
  unfold YouTube.bind at 1. simpl YouTube.lift.
  destruct (resolve_from_unknown stream_map js_url urls url (int digits) Hin
              (extract_fmt_unknown url digits Hitag Hmiss) 0%nat self) as [e He].
  exists e. now apply bind_raise.
Qed.

End Resolver.

Lemma unknown_format_aborts_resolution_witness :
  (exists e,
     fst (@YouTube.resolve_streams Demo.standard Demo.order
            (list_to_map [("url", ["http://h/v?itag=999&signature=AB"]);
                          ("s", [EmptyString])])
            "http://h/player.js" YouTube.init) = Raise e)
  /\ fst (@YouTube.from_url
            (Demo.collaborators Demo.unknown_format_text
               (Demo.page Demo.unknown_format_text))
            Demo.order "http://yt/watch?v=1" YouTube.init)
     = Raise TypeError.
Proof.
  split.
  - apply (@unknown_format_aborts_resolution Demo.standard Demo.order
             _ _ _ ["http://h/v?itag=999&signature=AB"]
             "http://h/v?itag=999&signature=AB" "999").
    + vm_compute; reflexivity.
    + now left.
    + vm_compute; reflexivity.
    + vm_compute; reflexivity.
  - vm_compute; reflexivity.
Defined.

(** ** The stream-map decoder *)

Section Decoder.

Context `{Collaborators}.
Implicit Types (s kv key value text : string) (sep : ascii).
Implicit Types (d : gmap string (list string)).

Lemma split_not_nil sep s : Str.split sep s <> [].
Proof.
  destruct s as [|a s]; simpl; [discriminate|].
  destruct (Ascii.eqb a sep); [discriminate|].
  destruct (Str.split sep s); discriminate.
Qed.

Lemma split_length sep s :
  length (Str.split sep s) = S (count_char sep s).
Proof.
  induction s as [|a s IH]; [reflexivity|].
  simpl. destruct (Ascii.eqb a sep); simpl; [now rewrite IH|].
  destruct (Str.split sep s) as [|w ws] eqn:Hs; simpl in *; lia.
Qed.

Lemma split_without sep s : count_char sep s = 0%nat -> Str.split sep s = [s].
Proof.
  induction s as [|a s IH]; [reflexivity|].
  simpl. destruct (Ascii.eqb a sep); [discriminate|].
  intros Hs. now rewrite IH.
Qed.

(** The first part of a split ends at the first separator. *)
Lemma split_at_first sep key rest :
  count_char sep key = 0%nat ->
  Str.split sep (key +:+ String sep rest) = key :: Str.split sep rest.
Proof.
  induction key as [|a key IH]; intros Hkey.
  - simpl. now rewrite Ascii.eqb_refl.
  - change (String a key +:+ String sep rest)
      with (String a (key +:+ String sep rest)).
    simpl in *. destruct (Ascii.eqb a sep); [discriminate|].
    now rewrite IH.
Qed.

Lemma parse_pair_one kv d :
  count_char "=" kv = 1%nat ->
  YouTube.parse_pair d kv
  = Return (YouTube.append_value d (key_of kv) (unquote (value_of kv))).
Proof.
  intros Hone. unfold YouTube.parse_pair, key_of, value_of.
  pose proof (split_length "=" kv) as Hlen. rewrite Hone in Hlen.
  destruct (Str.split "=" kv) as [|k [|v [|w ws]]]; simpl in Hlen; try lia.
  reflexivity.
Qed.

Lemma parse_pair_other kv d :
  count_char "=" kv <> 1%nat -> YouTube.parse_pair d kv = Raise ValueError.
Proof.
  intros Hone. unfold YouTube.parse_pair.
  pose proof (split_length "=" kv) as Hlen.
  destruct (Str.split "=" kv) as [|k [|v [|w ws]]]; simpl in Hlen;
    try reflexivity.
  lia.
Qed.

Lemma for_each_app {A B} (f : A -> B -> res A) acc (l1 l2 : list B) :
  YouTube.for_each f acc (l1 ++ l2)
  = match YouTube.for_each f acc l1 with
    | Return acc' => YouTube.for_each f acc' l2
    | Raise e => Raise e
    end.
Proof.
  revert acc; induction l1 as [|x l1 IH]; intros acc; simpl; [reflexivity|].
  destruct (f acc x); [apply IH | reflexivity].
Qed.

(** The nested loops run over the pairs of all records in turn. *)
Lemma parse_stream_map_pairs text :
  YouTube._parse_stream_map text
  = YouTube.for_each YouTube.parse_pair YouTube.videoinfo0 (pairs_of text).
Proof.
  unfold YouTube._parse_stream_map, pairs_of.
  generalize YouTube.videoinfo0.
  induction (map (Str.split "&") (Str.split "," text)) as [|video videos IH];
    intros d; simpl; [reflexivity|].
  rewrite for_each_app.
  destruct (YouTube.for_each YouTube.parse_pair d video); [apply IH | reflexivity].
Qed.

Lemma for_each_rejects kv (pairs : list string) d :
  In kv pairs -> count_char "=" kv <> 1%nat ->
  YouTube.for_each YouTube.parse_pair d pairs = Raise ValueError.
Proof.
  intros Hin Hkv. revert d; induction pairs as [|p pairs IH]; intros d;
    [destruct Hin|].
  simpl. destruct (Nat.eq_dec (count_char "=" p) 1%nat) as [Hp|Hp].
  - rewrite parse_pair_one by exact Hp.
    destruct Hin as [->|Hin]; [contradiction | now apply IH].
  - now rewrite parse_pair_other.
Qed.

Lemma for_each_accepts (pairs : list string) d :
  Forall (fun kv => count_char "=" kv = 1%nat) pairs ->
  exists d', YouTube.for_each YouTube.parse_pair d pairs = Return d'.
Proof.
  intros Hall. revert d; induction Hall as [|p pairs Hp Hall IH]; intros d;
    simpl; [eauto|].
  rewrite parse_pair_one by exact Hp. apply IH.
Qed.

Lemma count_char_append c s1 s2 :
  count_char c (s1 +:+ s2) = (count_char c s1 + count_char c s2)%nat.
Proof.
  induction s1 as [|a s1 IH]; [reflexivity|].
  change (String a s1 +:+ s2) with (String a (s1 +:+ s2)).
  simpl. rewrite IH. lia.
Qed.

(** C2, as the code has it: a pair is split on every [=] and must fall
    into exactly two parts.  With a key free of [=], a value free of [=]
    is stored percent-decoded under the key; a value that holds a further
    [=] makes the pair, and any stream map containing it, fail with
    [ValueError]. *)
Theorem pair_splits_on_every_equals d key value :
  count_char "=" key = 0%nat ->
  (count_char "=" value = 0%nat ->
     YouTube.parse_pair d (key +:+ "=" +:+ value)
     = Return (YouTube.append_value d key (unquote value)))
  /\ (count_char "=" value <> 0%nat ->
        YouTube.parse_pair d (key +:+ "=" +:+ value) = Raise ValueError
        /\ forall text, In (key +:+ "=" +:+ value) (pairs_of text) ->
             YouTube._parse_stream_map text = Raise ValueError).
Proof.
  intros Hkey.
  change (key +:+ "=" +:+ value) with (key +:+ String "=" value).
  assert (Hcount : count_char "=" (key +:+ String "=" value)
                   = S (count_char "=" value)).
  { rewrite count_char_append, Hkey. reflexivity. }
  split.
  - intros Hvalue. unfold YouTube.parse_pair.
    rewrite split_at_first, (split_without _ value) by assumption.
    reflexivity.
  - intros Hvalue. split.
    + apply parse_pair_other. lia.
    + intros text Hin. rewrite parse_stream_map_pairs.
      apply (for_each_rejects _ _ _ Hin). lia.
Qed.

End Decoder.

Lemma pair_splits_on_every_equals_witness :
  @YouTube.parse_pair Demo.standard YouTube.videoinfo0 "url=a%3Db"
  = Return (@YouTube.append_value YouTube.videoinfo0 "url" "a=b")
  /\ @YouTube._parse_stream_map Demo.standard "itag=5&url=a=b" = Raise ValueError.
Proof.
  split.
  - apply (proj1 (@pair_splits_on_every_equals Demo.standard
                    YouTube.videoinfo0 "url" "a%3Db" eq_refl) eq_refl).
  - apply (proj2 (proj2 (@pair_splits_on_every_equals Demo.standard
                           YouTube.videoinfo0 "url" "a=b" eq_refl)
                    ltac:(discriminate)) "itag=5&url=a=b").
    vm_compute. right; left; reflexivity.
Defined.

(** A pair whose value holds a further [=] is not decoded: the split
    yields three parts and the unpacking raises. *)
Lemma value_with_equals_is_rejected :
  Str.split "=" "url=a=b" = ["url"; "a"; "b"]
  /\ (forall C : Collaborators,
        @YouTube._parse_stream_map C "url=a=b" = Raise ValueError).
Proof. split; [reflexivity | intros C; reflexivity]. Qed.

Section Alignment.

Context `{Collaborators}.
Implicit Types (kv key value text : string).
Implicit Types (d : gmap string (list string)).

Lemma lookup_append_value d k v key :
  YouTube.append_value d k v !! key
  = if decide (k = key) then (fun l => l ++ [v]) <$> d !! key else d !! key.
Proof.
  unfold YouTube.append_value.
  destruct (d !! k) as [l|] eqn:Hk; destruct (decide (k = key)) as [<-|Hne].
  - now rewrite lookup_insert_eq, Hk.
  - now rewrite lookup_insert_ne.
  - now rewrite Hk.
  - reflexivity.
Qed.

(** What the loop over the pairs leaves under each key. *)
Lemma for_each_collects (pairs : list string) d d' :
  YouTube.for_each YouTube.parse_pair d pairs = Return d' ->
  forall key,
    d' !! key
    = (fun l => l ++ map (fun kv => unquote (value_of kv))
                       (List.filter (carries key) pairs)) <$> d !! key.
Proof.
  revert d; induction pairs as [|p pairs IH]; intros d Hrun key.
  - injection Hrun as <-. destruct (d !! key); simpl; [|reflexivity].
    now rewrite app_nil_r.
  - simpl in Hrun.
    destruct (Nat.eq_dec (count_char "=" p) 1%nat) as [Hp|Hp];
      [|now rewrite parse_pair_other in Hrun].
    rewrite parse_pair_one in Hrun by exact Hp.
    rewrite (IH _ Hrun key), lookup_append_value.
    simpl List.filter. unfold carries at 2, Str.eqb.
    destruct (decide (key_of p = key)) as [Heq|Hne].
    + apply String.eqb_eq in Heq. rewrite Heq.
      destruct (d !! key); simpl; [|reflexivity].
      now rewrite <- app_assoc.
    + apply String.eqb_neq in Hne. now rewrite Hne.
Qed.

Lemma videoinfo0_lookup key :
  YouTube.videoinfo0 !! key
  = if decide (key ∈ stream_map_keys) then Some [] else None.
Proof.
  destruct (decide (key ∈ stream_map_keys)) as [Hin|Hout].
  - unfold stream_map_keys in Hin.
    repeat (apply elem_of_cons in Hin as [->|Hin]; [reflexivity|]).
    now apply elem_of_nil in Hin.
  - apply not_elem_of_list_to_map_1. exact Hout.
Qed.

Lemma filter_concat_length {A B} (p : B -> bool) (f : A -> list B) (rs : list A) :
  (forall r, In r rs -> length (List.filter p (f r)) = 1%nat) ->
  length (List.filter p (concat (map f rs))) = length rs.
Proof.
  induction rs as [|r rs IH]; intros Hone; [reflexivity|].
  simpl. rewrite List.filter_app, length_app, Hone by now left.
  rewrite IH; [reflexivity|]. intros r' Hr'. apply Hone. now right.
Qed.

(** C8, as the code has it: on an accepted input the sequence under each
    of the six keys holds, in order, the percent-decoded values of the
    pairs that carry the key, no other key is stored, and the sequences
    all have the length of the record list when every record carries
    every key exactly once.  Nothing is validated when decoding ends. *)
Theorem decoded_sequences_follow_pairs text d :
  YouTube._parse_stream_map text = Return d ->
  (forall key, key ∈ stream_map_keys ->
     d !! key = Some (map (fun kv => unquote (value_of kv))
                        (List.filter (carries key) (pairs_of text))))
  /\ (forall key, key ∉ stream_map_keys -> d !! key = None)
  /\ ((forall record key, In record (Str.split "," text) ->
         key ∈ stream_map_keys ->
         length (List.filter (carries key) (Str.split "&" record)) = 1%nat) ->
      aligned d (length (Str.split "," text))).
Proof.
  rewrite parse_stream_map_pairs. intros Hrun.
  pose proof (for_each_collects _ _ _ Hrun) as Hd.
  assert (Hin : forall key, key ∈ stream_map_keys ->
     d !! key = Some (map (fun kv => unquote (value_of kv))
                        (List.filter (carries key) (pairs_of text)))).
  { intros key Hkey. rewrite Hd, videoinfo0_lookup.
    now destruct (decide (key ∈ stream_map_keys)). }
  assert (Hout : forall key, key ∉ stream_map_keys -> d !! key = None).
  { intros key Hkey. rewrite Hd, videoinfo0_lookup.
    now destruct (decide (key ∈ stream_map_keys)). }
  split; [exact Hin|]. split; [exact Hout|].
  intros Honce key l Hl.
  destruct (decide (key ∈ stream_map_keys)) as [Hkey|Hkey];
    [|rewrite Hout in Hl by exact Hkey; discriminate].
  rewrite Hin in Hl by exact Hkey. injection Hl as <-.
  rewrite length_map. unfold pairs_of.
  apply filter_concat_length. intros r Hr. now apply Honce.
Qed.

End Alignment.

Lemma decoded_sequences_follow_pairs_witness :
  exists d,
    @YouTube._parse_stream_map Demo.standard "itag=22&url=a,url=b&itag=18"
    = Return d
    /\ d !! "url" = Some ["a"; "b"]
    /\ d !! "itag" = Some ["22"; "18"].
Proof.
  destruct (@YouTube._parse_stream_map Demo.standard
              "itag=22&url=a,url=b&itag=18") as [d|e] eqn:Hrun;
    [|vm_compute in Hrun; discriminate].
  exists d. split; [reflexivity|].
  pose proof (@decoded_sequences_follow_pairs Demo.standard _ d Hrun)
    as (Hin & _ & _).
  split; rewrite Hin by (vm_compute; set_solver); reflexivity.
Defined.

(** An accepted stream map whose sequences differ in length: the second
    record alone carries a signature. *)
Lemma stream_map_not_aligned :
  exists d,
    @YouTube._parse_stream_map Demo.standard "itag=22&url=a,itag=18&url=b&s=x"
    = Return d
    /\ d !! "url" = Some ["a"; "b"]
    /\ d !! "s" = Some ["x"]
    /\ ~ aligned d (length (Str.split "," "itag=22&url=a,itag=18&url=b&s=x")).
Proof.
  eexists. split; [vm_compute; reflexivity|].
  split; [vm_compute; reflexivity|].
  split; [vm_compute; reflexivity|].
  intros Haligned. specialize (Haligned "s" ["x"]).
  assert (Hlen : length ["x"] = 2%nat) by (apply Haligned; vm_compute; reflexivity).
  discriminate.
Qed.

(** ** Worked examples *)

Example find_json_offset_nested :
  YouTube._find_json_offset "{a{b}c}rest" = Some 7.
Proof. reflexivity. Qed.

Example find_json_offset_truncated :
  YouTube._find_json_offset "{a{b}c" = None.
Proof. reflexivity. Qed.

Example find_json_offset_closing_first :
  YouTube._find_json_offset "}{}" = None.
Proof. reflexivity. Qed.

Example findall_itag_twice :
  Re.findall_itag "itag=12itag=3&itag=x" = ["12"; "3"].
Proof. reflexivity. Qed.

Example extract_fmt_known :
  _extract_fmt "http://h/v?itag=22&signature=AB"
  = Some (22, Some [ ("extension", "mp4"); ("resolution", "720p");
                     ("video_codec", "H.264"); ("profile", "High");
                     ("video_bitrate", "2-2.9"); ("audio_codec", "AAC");
                     ("audio_bitrate", "192") ]).
Proof. vm_compute. reflexivity. Qed.

Example extract_fmt_without_itag : _extract_fmt "http://h/v?id=1" = None.
Proof. reflexivity. Qed.

Example search_sig_player_script :
  Re.search_sig Demo.player_script = Some "zx".
Proof. reflexivity. Qed.

Example get_with_empty_extension :
  YouTube.get (Demo.with_videos [Demo.mp4_720]) (Some EmptyString) None None
  = Return (Some Demo.mp4_720).
Proof. reflexivity. Qed.

Example get_ambiguous :
  YouTube.get (Demo.with_videos [Demo.mp4_720; Demo.mp4_360]) (Some "mp4")
    None None
  = Raise (MultipleObjectsReturned "get() returned more than one object").
Proof. reflexivity. Qed.

Example sort_by_height_then_rank :
  @Video.sort Demo.order [Demo.webm_360; Demo.mp4_360; Demo.mp4_720]
  = [Demo.mp4_720; Demo.mp4_360; Demo.webm_360].
Proof. vm_compute. reflexivity. Qed.

Example resolve_two_streams :
  map Video.url
    (YouTube.videos
       (snd (@YouTube.from_url Demo.standard Demo.order "http://yt/watch?v=1"
               YouTube.init)))
  = ["http://h/v?itag=22&signature=AB"; "http://h/v?itag=18&signature=edcba"].
Proof. vm_compute. reflexivity. Qed.

Example truncated_page_is_rejected :
  fst (@YouTube.from_url
         (Demo.collaborators Demo.stream_map_text Demo.truncated_page)
         Demo.order "http://yt/watch?v=1" YouTube.init)
  = Raise (YouTubeError "Unable to extract json.").
Proof. vm_compute. reflexivity. Qed.

(** * Further properties of the code *)

(** ** Where the boundary scan stops *)

Section ScanEnd.

Implicit Types (s junk frag rest pre : string) (n i : Z) (j : nat).

Lemma scan_least s n i :
  match YouTube.scan_brackets s n i with
  | Some r =>
      exists j, r = i + Z.of_nat j
        /\ String.get j s = Some "}"%char
        /\ n + depth (Str.take (S j) s) = 0
        /\ forall j', (j' < j)%nat ->
             ~ (String.get j' s = Some "}"%char
                /\ n + depth (Str.take (S j') s) = 0)
  | None =>
      forall j, ~ (String.get j s = Some "}"%char
                   /\ n + depth (Str.take (S j) s) = 0)
  end.
Proof.
  revert n i; induction s as [|a s IH]; intros n i.
  - simpl. intros j [Hget _]. destruct j; discriminate.
  - rewrite scan_step.
    destruct (Ascii.eqb a "}" && (n + brace a =? 0)) eqn:Hend.
    + apply andb_true_iff in Hend as [Ha Hzero].
      apply Ascii.eqb_eq in Ha. apply Z.eqb_eq in Hzero. subst a.
      exists 0%nat. repeat split.
      * lia.
      * simpl. rewrite Z.add_0_r. exact Hzero.
      * intros j' Hj'. lia.
    + assert (Hhere : ~ (Some a = Some "}"%char /\ n + (brace a + 0) = 0)).
      { intros [[= ->] Hzero]. rewrite Z.add_0_r in Hzero.
        apply Z.eqb_eq in Hzero. rewrite Hzero in Hend. discriminate. }
      specialize (IH (n + brace a) (i + 1)).
      destruct (YouTube.scan_brackets s (n + brace a) (i + 1)) as [r|].
      * destruct IH as (j & -> & Hget & Hzero & Hleast).
        exists (S j). repeat split.
        -- lia.
        -- exact Hget.
        -- change (Str.take (S (S j)) (String a s))
             with (String a (Str.take (S j) s)).
           rewrite depth_cons. lia.
        -- intros [|j'] Hj'; [exact Hhere|].
           change (Str.take (S (S j')) (String a s))
             with (String a (Str.take (S j') s)).
           rewrite depth_cons, Z.add_assoc. simpl String.get.
           apply Hleast. lia.
      * intros [|j]; [exact Hhere|].
        change (Str.take (S (S j)) (String a s))
          with (String a (Str.take (S j) s)).
        rewrite depth_cons, Z.add_assoc. simpl String.get. apply IH.
Qed.

(** X1: [_find_json_offset] returns one more than the index of the first
    closing brace at which the depth of the text read so far is zero, and
    [None] exactly when the text has no such brace. *)
Theorem find_json_offset_first_close s :
  match YouTube._find_json_offset s with
  | Some offset =>
      exists j, offset = Z.of_nat (S j) /\ closes_at s j
        /\ forall j', (j' < j)%nat -> ~ closes_at s j'
  | None => forall j, ~ closes_at s j
  end.
Proof.
  unfold YouTube._find_json_offset, closes_at.
  pose proof (scan_least s 0 0) as Hscan.
  destruct (YouTube.scan_brackets s 0 0) as [r|].
  - destruct Hscan as (j & -> & Hget & Hzero & Hleast).
    exists j. repeat split; [lia | exact Hget | lia |].
    intros j' Hj' [Hget' Hzero']. apply (Hleast j' Hj'). split; [exact Hget' | lia].
  - intros j [Hget Hzero]. apply (Hscan j). split; [exact Hget | lia].
Qed.

Lemma brace_no_brace c : no_brace c = true -> brace c = 0.
Proof.
  unfold no_brace, brace. destruct (Ascii.eqb c "{"); [discriminate|].
  destruct (Ascii.eqb c "}"); [discriminate | reflexivity].
Qed.

(** The scan passes over text without braces and keeps its count. *)
Lemma scan_no_brace junk s n i :
  all_chars no_brace junk = true ->
  YouTube.scan_brackets (junk +:+ s) n i
  = YouTube.scan_brackets s n (i + Z.of_nat (String.length junk)).
Proof.
  revert i; induction junk as [|a junk IH]; intros i Hjunk.
  - simpl. now rewrite Z.add_0_r.
  - simpl in Hjunk. apply andb_true_iff in Hjunk as [Ha Hjunk].
    change (String a junk +:+ s) with (String a (junk +:+ s)).
    rewrite scan_step, (brace_no_brace a Ha), Z.add_0_r.
    replace (Ascii.eqb a "}") with false
      by (unfold no_brace in Ha; now destruct (Ascii.eqb a "}"), (Ascii.eqb a "{")).
    simpl andb. cbv iota. rewrite IH by exact Hjunk.
    f_equal. simpl String.length. lia.
Qed.

End ScanEnd.

Section TextBeforeBrace.

Context `{Collaborators}.

(** X2: the scan does not look for the opening brace: text without braces
    that stands between the marker and a balanced fragment is part of what
    [_get_json_data] hands to the JSON decoder. *)
Theorem json_data_keeps_text_before_brace (pre junk frag rest : string) :
  let body := pre +:+ YouTube.marker +:+ junk +:+ frag +:+ rest in
  Str.find body YouTube.marker = Str.len pre ->
  all_chars no_brace junk = true ->
  balanced_fragment frag ->
  YouTube._get_json_data body = json_loads (junk +:+ frag).
Proof.
  intros body Hfind Hjunk Hfrag.
  assert (Hlen : (0 < String.length frag)%nat).
  { destruct Hfrag as (Hstart & _). destruct frag; [discriminate | simpl; lia]. }
  unfold YouTube._get_json_data. fold body. rewrite Hfind.
  unfold body. rewrite slice_after_marker.
  assert (Hoffset : YouTube._find_json_offset (junk +:+ frag +:+ rest)
                    = Some (Z.of_nat (String.length (junk +:+ frag)))).
  { apply balanced_fragment_inv in Hfrag as (p & -> & Hone & Hpos).
    unfold YouTube._find_json_offset.
    rewrite scan_no_brace by exact Hjunk.
    rewrite append_assoc, scan_prefix
      by (intros k Hk; specialize (Hpos k Hk); lia).
    change ("}" +:+ rest) with (String "}" rest).
    rewrite scan_step, Hone. simpl.
    rewrite !length_append. simpl String.length. f_equal. lia. }
  rewrite Hoffset.
  replace (Z.of_nat (String.length (junk +:+ frag)) =? 0) with false
    by (symmetry; apply Z.eqb_neq; rewrite length_append; lia).
  unfold Str.slice_to. rewrite <- append_assoc.
  rewrite clamp_inside by (rewrite (length_append (junk +:+ frag)); lia).
  now rewrite take_append.
Qed.

End TextBeforeBrace.

Lemma json_data_keeps_text_before_brace_witness :
  @YouTube._get_json_data Demo.standard "ytplayer.config =  {a};"
  = @json_loads Demo.standard " {a}".
Proof.
  apply (@json_data_keeps_text_before_brace Demo.standard
           EmptyString " " "{a}" ";" eq_refl eq_refl).
  repeat split.
  intros n Hn. simpl in Hn.
  do 3 (destruct n as [|n]; [vm_compute; first [reflexivity | lia]|]).
  lia.
Defined.

(** ** The scanners behind the two patterns *)

Section Scanners.

Implicit Types (s sub run rest text pre post name code : string).
Implicit Types (p : ascii -> bool).

Lemma startswith_nil s : Str.startswith EmptyString s = true.
Proof. now destruct s. Qed.

Lemma startswith_inv sub s :
  Str.startswith sub s = true ->
  s = sub +:+ Str.drop (String.length sub) s.
Proof.
  revert s; induction sub as [|a sub IH]; intros s Hs; [reflexivity|].
  destruct s as [|c s]; [discriminate|].
  rewrite startswith_cons in Hs.
  destruct (Ascii.eqb_spec a c) as [->|]; [|discriminate].
  change (String c s = String c (sub +:+ Str.drop (String.length sub) s)).
  now rewrite <- IH.
Qed.

Lemma startswith_append sub s : Str.startswith sub (sub +:+ s) = true.
Proof.
  induction sub as [|a sub IH]; [apply startswith_nil|].
  change (String a sub +:+ s) with (String a (sub +:+ s)).
  now rewrite startswith_cons, Ascii.eqb_refl.
Qed.

(** The run taken by [span] and what it leaves. *)
Lemma span_spec p s :
  s = fst (Re.span p s) +:+ snd (Re.span p s)
  /\ all_chars p (fst (Re.span p s)) = true
  /\ match snd (Re.span p s) with
     | EmptyString => True
     | String c _ => p c = false
     end.
Proof.
  induction s as [|a s IH]; [now repeat split|].
  simpl. destruct (p a) eqn:Ha.
  - destruct (Re.span p s) as [run rest]; simpl in *.
    destruct IH as (Hs & Hrun & Hrest).
    repeat split; [now rewrite Hs at 1 | now rewrite Ha | exact Hrest].
  - now repeat split.
Qed.

Lemma span_append p run rest :
  all_chars p run = true ->
  match rest with EmptyString => True | String c _ => p c = false end ->
  Re.span p (run +:+ rest) = (run, rest).
Proof.
  intros Hrun Hrest; induction run as [|a run IH].
  - destruct rest as [|c rest]; simpl; [reflexivity | now rewrite Hrest].
  - simpl in Hrun. apply andb_true_iff in Hrun as [Ha Hrun].
    change (String a run +:+ rest) with (String a (run +:+ rest)).
    simpl. now rewrite Ha, IH.
Qed.

Lemma match_itag_inv s run :
  Re.match_itag s = Some run ->
  run <> EmptyString /\ all_chars Re.is_digit run = true
  /\ exists post, s = "itag=" +:+ run +:+ post.
Proof.
  unfold Re.match_itag.
  destruct (Str.startswith "itag=" s) eqn:Hstart; [|discriminate].
  apply startswith_inv in Hstart. simpl String.length in Hstart.
  destruct (span_spec Re.is_digit (Str.drop 5 s)) as (Hs & Hrun & _).
  destruct (fst (Re.span Re.is_digit (Str.drop 5 s))) as [|c run'] eqn:Hfst;
    [discriminate|].
  intros [= <-]. repeat split; [discriminate | exact Hrun |].
  eexists. rewrite Hstart at 1. now rewrite Hs at 1.
Qed.

Lemma findall_itag_from_inv text :
  forall skip g, In g (Re.findall_itag_from skip text) ->
    g <> EmptyString /\ all_chars Re.is_digit g = true
    /\ exists pre post, text = pre +:+ "itag=" +:+ g +:+ post.
Proof.
  induction text as [|c text IH]; intros skip g Hg; [destruct Hg|].
  assert (Hlater : forall k, In g (Re.findall_itag_from k text) ->
            g <> EmptyString /\ all_chars Re.is_digit g = true
            /\ exists pre post, String c text = pre +:+ "itag=" +:+ g +:+ post).
  { intros k Hk. destruct (IH k g Hk) as (Hne & Hdigits & pre & post & ->).
    repeat split; [exact Hne | exact Hdigits |].
    now exists (String c pre), post. }
  simpl in Hg. destruct skip as [|k]; [|now apply (Hlater k)].
  destruct (Re.match_itag (String c text)) as [run|] eqn:Hmatch;
    [|now apply (Hlater 0%nat)].
  destruct Hg as [<-|Hg]; [|now apply (Hlater _ Hg)].
  destruct (match_itag_inv _ _ Hmatch) as (Hne & Hdigits & post & Hpost).
  repeat split; [exact Hne | exact Hdigits |].
  now exists EmptyString, post.
Qed.

Lemma int_of_digits_nonneg s acc :
  all_chars Re.is_digit s = true -> 0 <= acc -> 0 <= int_of_digits acc s.
Proof.
  revert acc; induction s as [|c s IH]; intros acc Hs Hacc; [exact Hacc|].
  simpl in Hs. apply andb_true_iff in Hs as [Hc Hs].
  simpl. apply IH; [exact Hs|].
  unfold Re.is_digit in Hc. apply andb_true_iff in Hc as [Hlo _].
  apply N.leb_le in Hlo. lia.
Qed.

(** The rows of the catalog have seven entries. *)
Lemma catalog_row itag row :
  YT_ENCODING !! itag = Some row ->
  exists a b c d e f g, row = [a; b; c; d; e; f; g].
Proof.
  intros Hrow. unfold YT_ENCODING in Hrow.
  apply elem_of_list_to_map_2 in Hrow.
  repeat (apply elem_of_cons in Hrow as [[= -> ->]|Hrow]; [eauto 10|]).
  now apply elem_of_nil in Hrow.
Qed.

(** X3: the identifier [_extract_fmt] returns is read off the text: the
    text holds [itag=] followed by a non-empty run of decimal digits, the
    identifier is the number they write, and it is not negative. *)
Theorem extract_fmt_identifier text itag data :
  _extract_fmt text = Some (itag, data) ->
  exists digits pre post,
    text = pre +:+ "itag=" +:+ digits +:+ post
    /\ digits <> EmptyString
    /\ all_chars Re.is_digit digits = true
    /\ Re.findall_itag text = [digits]
    /\ itag = int digits
    /\ 0 <= itag.
Proof.
  unfold _extract_fmt.
  destruct (Re.findall_itag text) as [|digits [|more rest]] eqn:Hall;
    try discriminate.
  intros Hfmt.
  assert (Hitag : itag = int digits).
  { destruct (YT_ENCODING !! int digits) as [[|a row]|]; now injection Hfmt. }
  destruct (findall_itag_from_inv text 0%nat digits) as (Hne & Hdigits & pre & post & Htext).
  { unfold Re.findall_itag in Hall. rewrite Hall. now left. }
  exists digits, pre, post. repeat split; try assumption.
  subst itag. now apply int_of_digits_nonneg.
Qed.

(** X4: [_extract_fmt] returns keyword data exactly for the identifiers of
    the catalog, and the data pair the seven keys of [YT_ENCODING_KEYS], in
    their order, with the seven entries of the identifier's row. *)
Theorem extract_fmt_descriptor text itag :
  (forall d, _extract_fmt text = Some (itag, Some d) ->
     map fst d = YT_ENCODING_KEYS /\ YT_ENCODING !! itag = Some (map snd d))
  /\ (_extract_fmt text = Some (itag, None) -> YT_ENCODING !! itag = None).
Proof.
  unfold _extract_fmt.
  destruct (Re.findall_itag text) as [|digits [|more rest]];
    try (split; [intros d|]; discriminate).
  destruct (YT_ENCODING !! int digits) as [row|] eqn:Hrow.
  - destruct (catalog_row _ _ Hrow) as (a & b & c & d0 & e & f & g & ->).
    split; [|discriminate].
    intros d [= <- <-]. now rewrite Hrow.
  - split; [intros d; discriminate|]. now intros [= <-].
Qed.

End Scanners.

Lemma extract_fmt_identifier_witness :
  exists digits pre post,
    "http://h/v?itag=022&signature=AB" = pre +:+ "itag=" +:+ digits +:+ post
    /\ digits <> EmptyString
    /\ all_chars Re.is_digit digits = true
    /\ Re.findall_itag "http://h/v?itag=022&signature=AB" = [digits]
    /\ 22 = int digits
    /\ 0 <= 22.
Proof.
  apply (extract_fmt_identifier "http://h/v?itag=022&signature=AB" 22
           (Some (zip YT_ENCODING_KEYS
                    ["mp4"; "720p"; "H.264"; "High"; "2-2.9"; "AAC"; "192"]))).
  vm_compute. reflexivity.
Defined.

Section Locator.

Implicit Types (s name code pre post rest : string).

Lemma is_ident_paren : Re.is_ident "(" = false.
Proof. reflexivity. Qed.

Lemma match_sig_inv s name :
  Re.match_sig s = Some name ->
  name <> EmptyString /\ all_chars Re.is_ident name = true
  /\ exists post, s = ".sig||" +:+ name +:+ "(" +:+ post.
Proof.
  unfold Re.match_sig.
  destruct (Str.startswith ".sig||" s) eqn:Hstart; [|discriminate].
  apply startswith_inv in Hstart. simpl String.length in Hstart.
  destruct (span_spec Re.is_ident (Str.drop 6 s)) as (Hs & Hrun & _).
  destruct (Re.span Re.is_ident (Str.drop 6 s)) as [run rest]; simpl in *.
  destruct run as [|c run]; [discriminate|]. simpl Str.falsy. cbv iota.
  destruct (Str.startswith "(" rest) eqn:Hparen; [|discriminate].
  apply startswith_inv in Hparen. simpl String.length in Hparen.
  intros [= <-]. repeat split; [discriminate | exact Hrun |].
  exists (Str.drop 1 rest). rewrite Hstart at 1. rewrite Hs at 1.
  now rewrite Hparen at 1.
Qed.

Lemma match_sig_here name post :
  name <> EmptyString -> all_chars Re.is_ident name = true ->
  Re.match_sig (".sig||" +:+ name +:+ "(" +:+ post) = Some name.
Proof.
  intros Hne Hname. unfold Re.match_sig.
  rewrite startswith_append.
  change (Str.drop 6 (".sig||" +:+ name +:+ "(" +:+ post))
    with (name +:+ String "(" post).
  rewrite span_append by (exact Hname || exact is_ident_paren).
  destruct name as [|c name]; [congruence|].
  change (Str.falsy (String c name)) with false. cbv iota.
  now rewrite startswith_cons, Ascii.eqb_refl, startswith_nil.
Qed.

(** X5: the locator returns a name only where the script reads
    [.sig||NAME(] with [NAME] a non-empty run of letters, digits and [$],
    and it returns one whenever the script holds such a call site. *)
Theorem search_sig_call_site :
  (forall code name, Re.search_sig code = Some name ->
     name <> EmptyString /\ all_chars Re.is_ident name = true
     /\ exists pre post, code = pre +:+ ".sig||" +:+ name +:+ "(" +:+ post)
  /\ (forall pre name post,
        name <> EmptyString -> all_chars Re.is_ident name = true ->
        Re.search_sig (pre +:+ ".sig||" +:+ name +:+ "(" +:+ post) <> None).
Proof.
  split.
  - intros code name. induction code as [|c code IH].
    + discriminate.
    + simpl. destruct (Re.match_sig (String c code)) eqn:Hm.
      * intros [= ->].
        destruct (match_sig_inv _ _ Hm) as (Hne & Hid & post & Hpost).
        repeat split; [exact Hne | exact Hid |]. now exists EmptyString, post.
      * intros Hlater. destruct (IH Hlater) as (Hne & Hid & pre & post & ->).
        repeat split; [exact Hne | exact Hid |]. now exists (String c pre), post.
  - intros pre name post Hne Hname. induction pre as [|c pre IH].
    + change (EmptyString +:+ ".sig||" +:+ name +:+ "(" +:+ post)
        with (".sig||" +:+ name +:+ "(" +:+ post).
      assert (Hm := match_sig_here name post Hne Hname).
      remember (".sig||" +:+ name +:+ "(" +:+ post) as s eqn:Hs.
      destruct s; [discriminate Hs | simpl; now rewrite Hm].
    + change (String c pre +:+ ".sig||" +:+ name +:+ "(" +:+ post)
        with (String c (pre +:+ ".sig||" +:+ name +:+ "(" +:+ post)).
      simpl. now destruct (Re.match_sig _).
Qed.

End Locator.

(** ** What the instance remembers *)

Section Caches.

Context `{Collaborators}.
Implicit Types (self : YouTube.state).

Lemma get_cipher_cached self signature url :
  YouTube.not_ (YouTube._js_code self) = false ->
  YouTube._get_cipher signature url self
  = (wrapped (YouTube.cipher_attempt
                (default EmptyString (YouTube._js_code self)) signature), self).
Proof.
  intros Hcached.
  unfold YouTube._get_cipher, YouTube.bind, YouTube.read, YouTube.ret,
    YouTube.raise; simpl. rewrite Hcached.
  now destruct (YouTube.cipher_attempt _ signature).
Qed.

Lemma get_cipher_download self signature url code :
  YouTube.not_ (YouTube._js_code self) = true ->
  urlopen_script url = Return code ->
  YouTube._get_cipher signature url self
  = (wrapped (YouTube.cipher_attempt code signature),
     YouTube.set_js_code (Some code) self).
Proof.
  intros Hempty Hcode.
  unfold YouTube._get_cipher, YouTube.bind, YouTube.read, YouTube.ret,
    YouTube.raise, YouTube.lift, YouTube.update; simpl.
  rewrite Hempty, Hcode.
  now destruct (YouTube.cipher_attempt code signature).
Qed.

(** X6: the player script is downloaded when the instance holds none.  A
    failed download leaves [_get_cipher] as it was raised, not as a
    [CipherError], and leaves the instance unchanged.  A downloaded script
    is kept even when the descrambling fails, and once a non-empty script
    is kept every later call descrambles with it, whatever URL it is
    given, without touching the instance. *)
Theorem player_script_is_kept self signature url :
  YouTube.not_ (YouTube._js_code self) = true ->
  match urlopen_script url with
  | Raise e => YouTube._get_cipher signature url self = (Raise e, self)
  | Return code =>
      let self1 := snd (YouTube._get_cipher signature url self) in
      YouTube._js_code self1 = Some code
      /\ (Str.falsy code = false ->
          forall signature2 url2,
            YouTube._get_cipher signature2 url2 self1
            = (wrapped (YouTube.cipher_attempt code signature2), self1))
  end.
Proof.
  intros Hempty. destruct (urlopen_script url) as [code|e] eqn:Hcode.
  - rewrite (get_cipher_download self signature url code Hempty Hcode).
    simpl. split; [reflexivity|].
    intros Hcode' signature2 url2.
    now rewrite get_cipher_cached.
  - unfold YouTube._get_cipher, YouTube.bind, YouTube.read, YouTube.lift;
      simpl. now rewrite Hempty, Hcode.
Qed.

(** X7: the [filename] property computes the name from the title once: a
    read that returns a non-empty name stores it, later reads return it
    without changing the instance, and the stream list and the title are
    not touched. *)
Theorem filename_is_computed_once self name self1 :
  YouTube.filename self = (Return name, self1) ->
  Str.falsy name = false ->
  YouTube.filename self1 = (Return name, self1)
  /\ YouTube._filename self1 = Some name
  /\ YouTube.videos self1 = YouTube.videos self
  /\ YouTube.title self1 = YouTube.title self.
Proof.
  unfold YouTube.filename, YouTube.bind, YouTube.read, YouTube.ret,
    YouTube.lift, YouTube.update; simpl.
  destruct (YouTube.not_ (YouTube._filename self)) eqn:Hnot.
  - destruct (safe_filename (YouTube.title self)) as [n|e]; [|discriminate].
    intros [= -> <-] Hname. simpl. now rewrite Hname.
  - intros [= <- <-] Hname. rewrite Hnot.
    destruct (YouTube._filename self) as [n|]; [|discriminate].
    simpl in *. now repeat split.
Qed.

End Caches.

Lemma player_script_is_kept_witness :
  YouTube._js_code
    (snd (@YouTube._get_cipher Demo.standard "abcde" "http://h/player.js"
            YouTube.init))
  = Some Demo.player_script.
Proof.
  exact (proj1 (@player_script_is_kept Demo.standard YouTube.init "abcde"
                  "http://h/player.js" eq_refl)).
Defined.

Lemma filename_is_computed_once_witness :
  @YouTube.filename Demo.standard
    (YouTube.set_filename_attr (Some "demo")
       (YouTube.set_title (JStr "demo") YouTube.init))
  = (Return "demo",
     YouTube.set_filename_attr (Some "demo")
       (YouTube.set_title (JStr "demo") YouTube.init)).
Proof.
  exact (proj1 (@filename_is_computed_once Demo.standard
                  (YouTube.set_title (JStr "demo") YouTube.init) "demo" _
                  eq_refl eq_refl)).
Defined.

(** ** Renaming and selecting streams *)

Section Selection.

Implicit Types (self : YouTube.state) (v : Video.t) (l : list Video.t).
Implicit Types (extension resolution profile : option string).

Lemma filter_map {A B} (p : B -> bool) (g : A -> B) (l : list A) :
  List.filter p (map g l) = map g (List.filter (fun x => p (g x)) l).
Proof.
  induction l as [|x l IH]; [reflexivity|].
  simpl. destruct (p (g x)); simpl; now rewrite IH.
Qed.

Lemma filter_twice {A} (p q : A -> bool) (l : list A) :
  List.filter q (List.filter p l) = List.filter (fun x => p x && q x) l.
Proof.
  induction l as [|x l IH]; [reflexivity|].
  simpl. destruct (p x); simpl; [destruct (q x)|]; now rewrite IH.
Qed.

Lemma meets_agrees criterion field :
  meets criterion field = true <-> agrees criterion field.
Proof.
  unfold meets, agrees. destruct criterion as [c|]; [|now split].
  destruct c as [|a c]; simpl.
  - split; [intros _ c [= <-] Hc; congruence | reflexivity].
  - unfold Str.eqb. rewrite String.eqb_eq. split.
    + intros -> c' [= <-] _. reflexivity.
    + intros Hc. now apply Hc.
Qed.

(** X8: [set_filename] stores the name and gives it to every resolved
    stream without touching their other attributes: filtering afterwards
    selects the renamed versions of the same streams, in the same order,
    and the [filename] property returns a non-empty name as it was set. *)
Theorem set_filename_renames `{Collaborators} self (name : string)
    extension resolution profile :
  (forall v, In v (YouTube.videos (YouTube.set_filename name self)) ->
     Video.filename v = name)
  /\ YouTube.filter (YouTube.set_filename name self) extension resolution profile
     = map (YouTube.with_filename name)
         (YouTube.filter self extension resolution profile)
  /\ (Str.falsy name = false ->
      YouTube.filename (YouTube.set_filename name self)
      = (Return name, YouTube.set_filename name self)).
Proof.
  assert (Hvideos : YouTube.videos (YouTube.set_filename name self)
                    = map (YouTube.with_filename name) (YouTube.videos self)).
  { unfold YouTube.set_filename; simpl.
    destruct (YouTube.videos self) eqn:Hvs; simpl; [exact Hvs | reflexivity]. }
  assert (Hname : YouTube._filename (YouTube.set_filename name self) = Some name).
  { unfold YouTube.set_filename; simpl. now destruct (YouTube.videos self). }
  split; [|split].
  - intros v. rewrite Hvideos, in_map_iff. now intros (w & <- & _).
  - rewrite !filter_matching. unfold matching. rewrite Hvideos.
    rewrite filter_map. f_equal.
  - intros Hfalsy.
    unfold YouTube.filename, YouTube.bind, YouTube.read, YouTube.ret; simpl.
    rewrite Hname. simpl. now rewrite Hfalsy.
Qed.

(** X9: [filter] returns, in the order of the stream list, exactly the
    streams whose extension, resolution and profile equal the criteria
    given; without criteria it returns the whole list. *)
Theorem filter_selects_equal_fields self extension resolution profile :
  (forall v, In v (YouTube.filter self extension resolution profile)
     <-> In v (YouTube.videos self)
         /\ agrees extension (Video.extension v)
         /\ agrees resolution (Video.resolution v)
         /\ agrees profile (Video.profile v))
  /\ sublist (YouTube.filter self extension resolution profile)
       (YouTube.videos self)
  /\ YouTube.filter self None None None = YouTube.videos self.
Proof.
  rewrite !filter_matching. unfold matching. repeat split.
  - rewrite filter_In in H. tauto.
  - rewrite filter_In in H. destruct H as [_ Hv]. unfold satisfies in Hv.
    apply andb_true_iff in Hv as [Hv _]. apply andb_true_iff in Hv as [Hv _].
    now apply meets_agrees.
  - rewrite filter_In in H. destruct H as [_ Hv]. unfold satisfies in Hv.
    apply andb_true_iff in Hv as [Hv _]. apply andb_true_iff in Hv as [_ Hv].
    now apply meets_agrees.
  - rewrite filter_In in H. destruct H as [_ Hv]. unfold satisfies in Hv.
    apply andb_true_iff in Hv as [_ Hv]. now apply meets_agrees.
  - intros (Hin & He & Hr & Hp). rewrite filter_In. split; [exact Hin|].
    unfold satisfies. now rewrite !(proj2 (meets_agrees _ _)).
  - induction (YouTube.videos self) as [|v l IH]; simpl; [constructor|].
    destruct (satisfies extension resolution profile v); now constructor.
  - induction (YouTube.videos self) as [|v l IH]; simpl; [reflexivity|].
    now rewrite IH.
Qed.

(** X10: selections compose.  Keeping the result of a [filter] as the
    stream list and filtering it by further criteria selects what one
    [filter] by all the criteria selects, in either order, and so does
    [get]; filtering twice by the same criteria changes nothing. *)
Theorem filters_compose self extension resolution profile :
  YouTube.filter
    (YouTube.set_videos (YouTube.filter self extension None None) self)
    None resolution profile
  = YouTube.filter self extension resolution profile
  /\ YouTube.filter
       (YouTube.set_videos (YouTube.filter self None resolution profile) self)
       extension None None
     = YouTube.filter self extension resolution profile
  /\ YouTube.filter
       (YouTube.set_videos
          (YouTube.filter self extension resolution profile) self)
       extension resolution profile
     = YouTube.filter self extension resolution profile
  /\ YouTube.get
       (YouTube.set_videos (YouTube.filter self extension None None) self)
       None resolution profile
     = YouTube.get self extension resolution profile.
Proof.
  rewrite !get_of_filter, !filter_matching. unfold matching. simpl.
  rewrite !filter_twice.
  assert (H1 : List.filter
                 (fun x => satisfies extension None None x
                           && satisfies None resolution profile x)
                 (YouTube.videos self)
               = List.filter (satisfies extension resolution profile)
                   (YouTube.videos self)).
  { apply filter_ext. intros v. unfold satisfies; simpl.
    now rewrite !andb_true_r, andb_assoc. }
  rewrite H1. repeat split.
  - rewrite <- H1. apply filter_ext. intros v. apply andb_comm.
  - apply filter_ext. intros v. apply andb_diag.
Qed.

End Selection.

(** ** What the resolver loop appends *)

Section Loop.

Context `{Collaborators} `{Video.Order}.
Implicit Types (self : YouTube.state) (url : string) (urls : list string).
Implicit Types (stream_map : gmap string (list string)).

Lemma same_streams_refl self : same_streams self self.
Proof. now repeat split. Qed.

Lemma same_streams_trans s1 s2 s3 :
  same_streams s1 s2 -> same_streams s2 s3 -> same_streams s1 s3.
Proof. unfold same_streams. intros (-> & -> & ->) (-> & -> & ->). now repeat split. Qed.

Lemma find_at_unfold sub s i :
  Str.find_at sub s i
  = if Str.startswith sub s then i
    else match s with
         | EmptyString => -1
         | String _ s' => Str.find_at sub s' (i + 1)
         end.
Proof. now destruct s. Qed.

Lemma find_at_found sub pre post i :
  0 <= i -> Str.find_at sub (pre +:+ sub +:+ post) i <> -1.
Proof.
  revert i; induction pre as [|c pre IH]; intros i Hi.
  - change (EmptyString +:+ sub +:+ post) with (sub +:+ post).
    rewrite find_at_unfold, startswith_append. lia.
  - change (String c pre +:+ sub +:+ post) with (String c (pre +:+ sub +:+ post)).
    rewrite find_at_unfold.
    destruct (Str.startswith sub _); [lia | apply IH; lia].
Qed.

Lemma contains_inside sub pre post :
  Str.contains sub (pre +:+ sub +:+ post) = true.
Proof.
  unfold Str.contains, Str.find. apply negb_true_iff, Z.eqb_neq.
  now apply find_at_found.
Qed.

Lemma get_cipher_frame signature url self r self' :
  YouTube._get_cipher signature url self = (r, self') -> same_streams self self'.
Proof.
  unfold YouTube._get_cipher, YouTube.bind, YouTube.read, YouTube.ret,
    YouTube.raise, YouTube.lift, YouTube.update; simpl.
  destruct (YouTube.not_ (YouTube._js_code self)); simpl.
  - destruct (urlopen_script url) as [code|e]; simpl.
    + destruct (YouTube.cipher_attempt code signature); intros [= _ <-];
        now repeat split.
    + intros [= _ <-]. apply same_streams_refl.
  - destruct (YouTube.cipher_attempt _ signature); intros [= _ <-];
      apply same_streams_refl.
Qed.

Lemma filename_frame self r self' :
  YouTube.filename self = (r, self') -> same_streams self self'.
Proof.
  unfold YouTube.filename, YouTube.bind, YouTube.read, YouTube.ret,
    YouTube.lift, YouTube.update; simpl.
  destruct (YouTube.not_ (YouTube._filename self)); simpl.
  - destruct (safe_filename (YouTube.title self)); intros [= _ <-];
      now repeat split.
  - intros [= _ <-]. apply same_streams_refl.
Qed.

(** The completed URL holds a signature. *)
Lemma complete_url_effect stream_map js_url i url self r self' :
  complete_url stream_map js_url i url self = (r, self') ->
  same_streams self self'
  /\ forall u, r = Return u -> Str.contains "signature=" u = true.
Proof.
  unfold complete_url.
  destruct (Str.contains "signature=" url) eqn:Hsigned; simpl.
  - intros [= <- <-]. split; [apply same_streams_refl|]. now intros u [= <-].
  - unfold YouTube.bind at 1, YouTube.lift at 1.
    destruct (YouTube.dict_index stream_map "s") as [sigs|e];
      [|intros [= <- <-]; split; [apply same_streams_refl | discriminate]].
    unfold YouTube.bind at 1, YouTube.lift at 1.
    destruct (YouTube.list_index sigs i) as [s|e];
      [|intros [= <- <-]; split; [apply same_streams_refl | discriminate]].
    unfold YouTube.bind at 1.
    destruct (YouTube._get_cipher s js_url self) as [[signature|e] s1] eqn:Hcipher;
      apply get_cipher_frame in Hcipher; intros [= <- <-];
      (split; [exact Hcipher|]); [|discriminate].
    intros u [= <-].
    change (url +:+ "&signature=" +:+ signature)
      with (url +:+ String "&" ("signature=" +:+ signature)).
    replace (url +:+ String "&" ("signature=" +:+ signature))
      with ((url +:+ "&") +:+ "signature=" +:+ signature)
      by now rewrite append_assoc.
    apply contains_inside.
Qed.

(** A stream built from the data of [_extract_fmt] carries the row of its
    identifier. *)
Lemma new_video_catalogued text fmt data u name v :
  _extract_fmt text = Some (fmt, Some data) ->
  Video.new u name (Some data) = Return v ->
  catalogued v /\ Video.url v = u /\ Video.filename v = name.
Proof.
  unfold _extract_fmt.
  destruct (Re.findall_itag text) as [|digits [|more rest]]; try discriminate.
  destruct (YT_ENCODING !! int digits) as [row|] eqn:Hrow; [|discriminate].
  destruct (catalog_row _ _ Hrow) as (a & b & c & d & e & f & g & ->).
  intros [= <- <-] [= <-]. split; [|now split].
  exists (int digits). rewrite Hrow. reflexivity.
Qed.

(** One turn of the loop: it skips the URL, or appends one stream and one
    identifier, or raises and appends nothing. *)
Lemma resolve_one_effect stream_map js_url i url self r self' :
  YouTube.resolve_one stream_map js_url i url self = (r, self') ->
  YouTube.title self' = YouTube.title self
  /\ match r with
     | Raise _ => YouTube.videos self' = YouTube.videos self
                  /\ YouTube._fmt_values self' = YouTube._fmt_values self
     | Return _ =>
         (single_itag url = false
          /\ YouTube.videos self' = YouTube.videos self
          /\ YouTube._fmt_values self' = YouTube._fmt_values self)
         \/ (single_itag url = true
             /\ exists v fmt,
                  YouTube.videos self' = YouTube.videos self ++ [v]
                  /\ YouTube._fmt_values self' = YouTube._fmt_values self ++ [fmt]
                  /\ catalogued v /\ signed v)
     end.
Proof.
  unfold YouTube.resolve_one, single_itag.
  destruct (_extract_fmt url) as [[fmt data]|] eqn:Hfmt.
  2:{ intros [= <- <-]. split; [reflexivity|]. left. now repeat split. }
  change (YouTube.bind ?m ?k self)
    with (YouTube.bind (complete_url stream_map js_url i url) k self).
  unfold YouTube.bind at 1.
  destruct (complete_url stream_map js_url i url self) as [[u|e] s1] eqn:Hurl;
    apply complete_url_effect in Hurl as ((Hv1 & Hf1 & Ht1) & Hsigned).
  2:{ intros [= <- <-]. now repeat split. }
  specialize (Hsigned u eq_refl).
  unfold YouTube.bind at 1.
  destruct (YouTube.filename s1) as [[name|e] s2] eqn:Hname;
    apply filename_frame in Hname as (Hv2 & Hf2 & Ht2).
  2:{ intros [= <- <-]. repeat split; congruence. }
  unfold YouTube.bind at 1, YouTube.lift at 1.
  destruct data as [data|]; simpl Video.new; cbv iota beta.
  2:{ intros [= <- <-]. repeat split; congruence. }
  destruct (new_video_catalogued url fmt data u name _ Hfmt eq_refl)
    as (Hcat & Hu & _).
  unfold YouTube.bind, YouTube.read, YouTube.update; simpl.
  intros [= <- <-]. simpl. split; [congruence|]. right.
  split; [reflexivity|]. eexists _, fmt. rewrite Hv2, Hv1, Hf2, Hf1.
  repeat split; [exact Hcat|]. unfold signed. simpl. exact Hsigned.
Qed.

(** The whole loop: the streams it appends and the identifiers it appends
    go in pairs. *)
Lemma resolve_from_effect stream_map js_url urls :
  forall i self r self',
    YouTube.resolve_from stream_map js_url i urls self = (r, self') ->
    YouTube.title self' = YouTube.title self
    /\ exists vs fs,
         YouTube.videos self' = YouTube.videos self ++ vs
         /\ YouTube._fmt_values self' = YouTube._fmt_values self ++ fs
         /\ length vs = length fs
         /\ Forall (fun v => catalogued v /\ signed v) vs
         /\ (forall u, r = Return u ->
              length vs = length (List.filter single_itag urls)).
Proof.
  induction urls as [|url urls IH]; intros i self r self'.
  - intros [= <- <-]. split; [reflexivity|]. exists [], [].
    rewrite !app_nil_r. now repeat split.
  - simpl YouTube.resolve_from. unfold YouTube.bind at 1.
    destruct (YouTube.resolve_one stream_map js_url i url self)
      as [[u|e] s1] eqn:Hone;
      apply resolve_one_effect in Hone as (Ht1 & Hone).
    + intros Hrest. apply IH in Hrest as (Ht & vs & fs & Hvs & Hfs & Hlen & Hall & Hcount).
      split; [congruence|].
      destruct Hone as [(Hskip & Hv1 & Hf1)|(Htake & v & fmt & Hv1 & Hf1 & Hcat & Hsig)].
      * exists vs, fs. rewrite Hvs, Hfs, Hv1, Hf1. simpl List.filter.
        rewrite Hskip. now repeat split.
      * exists (v :: vs), (fmt :: fs). rewrite Hvs, Hfs, Hv1, Hf1, <- !app_assoc.
        simpl List.filter. rewrite Htake. simpl.
        repeat split; [lia | now constructor |].
        intros u' Hr. now rewrite (Hcount u' Hr).
    + intros [= <- <-]. destruct Hone as [Hv1 Hf1]. split; [exact Ht1|].
      exists [], []. rewrite !app_nil_r. now repeat split.
Qed.

Lemma resolve_streams_effect stream_map js_url self r self' :
  YouTube.resolve_streams stream_map js_url self = (r, self') ->
  YouTube.title self' = YouTube.title self
  /\ exists vs fs,
       Permutation (YouTube.videos self ++ vs) (YouTube.videos self')
       /\ YouTube._fmt_values self' = YouTube._fmt_values self ++ fs
       /\ length vs = length fs
       /\ Forall (fun v => catalogued v /\ signed v) vs
       /\ (forall u urls, r = Return u -> stream_map !! "url" = Some urls ->
            length vs = length (List.filter single_itag urls)).
Proof.
  unfold YouTube.resolve_streams, YouTube.dict_index.
  unfold YouTube.bind at 1, YouTube.lift at 1.
  destruct (stream_map !! "url") as [urls|].
  2:{ intros [= <- <-]. split; [reflexivity|]. exists [], [].
      rewrite !app_nil_r. now repeat split. }
  unfold YouTube.bind at 1.
  destruct (YouTube.resolve_from stream_map js_url 0 urls self)
    as [[u|e] s1] eqn:Hloop;
    apply resolve_from_effect in Hloop
      as (Ht & vs & fs & Hvs & Hfs & Hlen & Hall & Hcount).
  - unfold YouTube.bind, YouTube.read, YouTube.update. intros [= <- <-].
    simpl. split; [exact Ht|]. exists vs, fs. rewrite <- Hvs.
    repeat split; try assumption; [apply sort_permutation|].
    intros u' urls' _ [= <-]. now apply (Hcount u).
  - intros [= <- <-]. split; [exact Ht|]. exists vs, fs. rewrite Hvs.
    now repeat split.
Qed.

End Loop.

(** ** Runs of [_get_video_info] *)

Section Runs.

Context `{Collaborators} `{Video.Order}.
Implicit Types (self : YouTube.state) (url : string) (urls : list string).
Implicit Types (stream_map : gmap string (list string)).

Lemma bind_update {B} f (k : unit -> YouTube.M B) self :
  YouTube.bind (YouTube.update f) k self = k tt (f self).
Proof. reflexivity. Qed.

Lemma bind_read {A B} (g : YouTube.state -> A) (k : A -> YouTube.M B) self :
  YouTube.bind (YouTube.read g) k self = k (g self) self.
Proof. reflexivity. Qed.

Lemma bind_lift {A B} (r : res A) (k : A -> YouTube.M B) self :
  YouTube.bind (YouTube.lift r) k self
  = match r with Return a => k a self | Raise e => (Raise e, self) end.
Proof. now destruct r. Qed.

(** A run either stops before the loop, with an empty stream list, or
    ends with the outcome of the loop started on an empty stream list. *)
Lemma get_video_info_cases self r self' :
  YouTube._get_video_info self = (r, self') ->
  (YouTube.videos self' = []
   /\ YouTube._fmt_values self' = YouTube._fmt_values self)
  \/ exists stream_map js_url s0 r',
       YouTube.videos s0 = []
       /\ YouTube._fmt_values s0 = YouTube._fmt_values self
       /\ YouTube._filename s0 = YouTube._filename self
       /\ YouTube.resolve_streams stream_map js_url s0 = (r', self').
Proof.
  unfold YouTube._get_video_info.
  rewrite !bind_update, bind_read, bind_lift.
  destruct (urlopen_page _) as [[body|]|e]; try (intros [= <- <-]; now left).
  destruct (Str.contains _ body); [intros [= <- <-]; now left|].
  rewrite bind_lift.
  destruct (YouTube._get_json_data body) as [json_data|e];
    [|intros [= <- <-]; now left].
  destruct (negb (truthy json_data)); [intros [= <- <-]; now left|].
  repeat first
    [ rewrite bind_update
    | progress change (YouTube.bind (YouTube.lift (Return ?a)) ?k ?s)
        with (k a s); cbv beta
    | rewrite bind_lift;
      match goal with
      | |- context [match ?x with Return _ => _ | Raise _ => _ end] =>
          destruct x; [|intros [= <- <-]; now left]
      end ].
  intros Hrun. right. unfold YouTube.bind in Hrun.
  match type of Hrun with
  | context [YouTube.resolve_streams ?sm ?js ?s] =>
      destruct (YouTube.resolve_streams sm js s) as [[u|e] s1] eqn:Hloop;
      injection Hrun as <- <-; exists sm, js, s; eauto 6
  end.
Qed.

Lemma get_video_info_streams self r self' :
  YouTube._get_video_info self = (r, self') ->
  exists fs,
    YouTube._fmt_values self' = YouTube._fmt_values self ++ fs
    /\ length fs = length (YouTube.videos self')
    /\ Forall (fun v => catalogued v /\ signed v) (YouTube.videos self').
Proof.
  intros Hrun.
  apply get_video_info_cases in Hrun
    as [[Hvs Hfs]|(sm & js & s0 & r' & Hvs & Hfs & _ & Hloop)].
  - exists []. rewrite Hvs, Hfs, app_nil_r. now repeat split.
  - apply resolve_streams_effect in Hloop
      as (_ & vs & fs & Hperm & Hfs' & Hlen & Hall & _).
    rewrite Hvs in Hperm. simpl in Hperm.
    exists fs. rewrite Hfs', Hfs. split; [reflexivity|]. split.
    + rewrite <- Hlen. now apply Permutation_length.
    + now apply (Permutation_Forall Hperm).
Qed.

(** X11: [_fmt_values] is never cleared.  Every run of [_get_video_info],
    whether it returns or raises, keeps the identifiers that were there
    and appends one for each stream in the stream list it leaves. *)
Theorem fmt_values_follow_streams self r self' :
  YouTube._get_video_info self = (r, self') ->
  exists appended,
    YouTube._fmt_values self' = YouTube._fmt_values self ++ appended
    /\ length appended = length (YouTube.videos self').
Proof.
  intros Hrun. apply get_video_info_streams in Hrun as (fs & Hfs & Hlen & _).
  now exists fs.
Qed.

(** X12: whatever the outcome of [_get_video_info], every stream in the
    list it leaves carries the seven entries of a catalog row as its
    attributes, and its URL holds a [signature=] parameter. *)
Theorem resolved_streams_are_catalogued_and_signed self r self' v :
  YouTube._get_video_info self = (r, self') ->
  In v (YouTube.videos self') ->
  catalogued v /\ signed v.
Proof.
  intros Hrun Hv. apply get_video_info_streams in Hrun as (fs & _ & _ & Hall).
  rewrite Forall_forall in Hall. apply Hall. now apply list_elem_of_In.
Qed.

(** X13: when the loop completes, it has appended exactly one stream for
    each URL of the stream map that holds a single [itag]. *)
Theorem one_stream_per_tagged_url stream_map js_url self u self' urls :
  YouTube.resolve_streams stream_map js_url self = (Return u, self') ->
  stream_map !! "url" = Some urls ->
  length (YouTube.videos self')
  = (length (YouTube.videos self) + length (List.filter single_itag urls))%nat.
Proof.
  intros Hrun Hurls. apply resolve_streams_effect in Hrun
    as (_ & vs & fs & Hperm & _ & _ & _ & Hcount).
  rewrite <- (Permutation_length Hperm), length_app.
  now rewrite (Hcount u urls eq_refl Hurls).
Qed.

(** X14: a stream without a signature in its URL needs the entry of its
    own position in the [s] sequence: when that sequence is too short the
    turn of the loop raises [IndexError] and changes nothing. *)
Theorem unsigned_stream_needs_its_entry stream_map js_url i url self fmt data sigs :
  _extract_fmt url = Some (fmt, data) ->
  Str.contains "signature=" url = false ->
  stream_map !! "s" = Some sigs ->
  (length sigs <= i)%nat ->
  YouTube.resolve_one stream_map js_url i url self = (Raise IndexError, self).
Proof.
  intros Hfmt Hunsigned Hsigs Hshort.
  unfold YouTube.resolve_one. rewrite Hfmt, Hunsigned. simpl negb. cbv iota.
  unfold YouTube.bind at 1. unfold YouTube.bind at 1.
  unfold YouTube.lift at 1, YouTube.dict_index. rewrite Hsigs.
  unfold YouTube.bind at 1, YouTube.lift at 1, YouTube.list_index.
  now rewrite (lookup_ge_None_2 sigs i Hshort).
Qed.

End Runs.

Lemma fmt_values_follow_streams_witness :
  exists appended,
    YouTube._fmt_values
      (snd (@YouTube._get_video_info Demo.standard Demo.order
              (YouTube.set_fmt_values [5] YouTube.init)))
    = [5] ++ appended
    /\ length appended
       = length (YouTube.videos
                   (snd (@YouTube._get_video_info Demo.standard Demo.order
                           (YouTube.set_fmt_values [5] YouTube.init)))).
Proof.
  apply (@fmt_values_follow_streams Demo.standard Demo.order
           (YouTube.set_fmt_values [5] YouTube.init) (Return JNull)).
  vm_compute. reflexivity.
Defined.

Lemma resolved_streams_are_catalogued_and_signed_witness :
  let v := Video.mk "http://h/v?itag=18&signature=edcba" "demo" "mp4" "360p"
             "H.264" "Baseline" "0.5" "AAC" "96" in
  catalogued v /\ signed v.
Proof.
  apply (@resolved_streams_are_catalogued_and_signed Demo.standard Demo.order
           YouTube.init (Return JNull)
           (snd (@YouTube._get_video_info Demo.standard Demo.order
                   YouTube.init))).
  - vm_compute. reflexivity.
  - vm_compute. right; left; reflexivity.
Defined.

Lemma one_stream_per_tagged_url_witness :
  length (YouTube.videos
            (snd (@YouTube.resolve_streams Demo.standard Demo.order
                    Cases.stream_map "http://h/player.js"
                    (YouTube.set_title (JStr "demo") YouTube.init))))
  = 2%nat.
Proof.
  apply (@one_stream_per_tagged_url Demo.standard Demo.order
           Cases.stream_map "http://h/player.js"
           (YouTube.set_title (JStr "demo") YouTube.init) tt _ Cases.urls).
  - vm_compute. reflexivity.
  - vm_compute. reflexivity.
Defined.

Lemma unsigned_stream_needs_its_entry_witness :
  fst (@YouTube.resolve_one Demo.standard Cases.unsigned_map
         "http://h/player.js" 0 "http://h/v?itag=18" YouTube.init)
  = Raise IndexError.
Proof.
  rewrite (@unsigned_stream_needs_its_entry Demo.standard Cases.unsigned_map
             "http://h/player.js" 0 "http://h/v?itag=18" YouTube.init
             18 _ [] ltac:(vm_compute; reflexivity) eq_refl
             ltac:(vm_compute; reflexivity) ltac:(simpl; lia)).
  reflexivity.
Defined.

(** ** Runs that stop before the stream map *)

Section EarlyExits.

Context `{Collaborators} `{Video.Order}.
Implicit Types (self : YouTube.state).

Lemma get_video_info_transport self e :
  urlopen_page (YouTube._video_url self) = Raise e ->
  YouTube._get_video_info self = (Raise e, cleared self).
Proof.
  intros Hpage. unfold YouTube._get_video_info.
  rewrite !bind_update, bind_read, bind_lift.
  change (YouTube._video_url _) with (YouTube._video_url self).
  now rewrite Hpage.
Qed.

Lemma get_video_info_false self :
  urlopen_page (YouTube._video_url self) = Return None ->
  YouTube._get_video_info self = (Return (JBool false), cleared self).
Proof.
  intros Hpage. unfold YouTube._get_video_info.
  rewrite !bind_update, bind_read, bind_lift.
  change (YouTube._video_url _) with (YouTube._video_url self).
  now rewrite Hpage.
Qed.

Lemma get_video_info_age self body :
  urlopen_page (YouTube._video_url self) = Return (Some body) ->
  Str.contains "og:restrictions:age" body = true ->
  YouTube._get_video_info self
  = (Raise (YouTubeError "Unable to fetch age restricted content."),
     cleared self).
Proof.
  intros Hpage Hage. unfold YouTube._get_video_info.
  rewrite !bind_update, bind_read, bind_lift.
  change (YouTube._video_url _) with (YouTube._video_url self).
  now rewrite Hpage, Hage.
Qed.

Lemma get_video_info_json_raises self body e :
  urlopen_page (YouTube._video_url self) = Return (Some body) ->
  Str.contains "og:restrictions:age" body = false ->
  YouTube._get_json_data body = Raise e ->
  YouTube._get_video_info self = (Raise e, cleared self).
Proof.
  intros Hpage Hage Hjson. unfold YouTube._get_video_info.
  rewrite !bind_update, bind_read, bind_lift.
  change (YouTube._video_url _) with (YouTube._video_url self).
  now rewrite Hpage, Hage, bind_lift, Hjson.
Qed.

Lemma get_video_info_without_config self body json_data :
  urlopen_page (YouTube._video_url self) = Return (Some body) ->
  Str.contains "og:restrictions:age" body = false ->
  YouTube._get_json_data body = Return json_data ->
  truthy json_data = false ->
  YouTube._get_video_info self
  = (Raise (YouTubeError "Unable to extract json."), cleared self).
Proof.
  intros Hpage Hage Hjson Hfalse. unfold YouTube._get_video_info.
  rewrite !bind_update, bind_read, bind_lift.
  change (YouTube._video_url _) with (YouTube._video_url self).
  now rewrite Hpage, Hage, bind_lift, Hjson, Hfalse.
Qed.

(** X15: [from_url] records the URL, forgets the file name and clears the
    title and the stream list before it fetches anything.  An exception of
    the transport leaves it unchanged; on a response that tests false
    [_get_video_info] returns [False] and [from_url], which has no
    [return], returns [None]; an age-restricted page, a configuration
    object that cannot be cut out or that tests false raise
    [YouTubeError]; an exception of the JSON decoder leaves it unchanged.
    In each case the streams of an earlier page are gone. *)
Theorem from_url_stops_early (url : string) self :
  let s := YouTube.set_filename_attr None
             (YouTube.set_video_url (Some url) self) in
  let s0 := cleared s in
  YouTube.videos s0 = []
  /\ match urlopen_page (Some url) with
     | Raise e => YouTube.from_url url self = (Raise e, s0)
     | Return None =>
         YouTube._get_video_info s = (Return (JBool false), s0)
         /\ YouTube.from_url url self = (Return JNull, s0)
     | Return (Some body) =>
         if Str.contains "og:restrictions:age" body then
           YouTube.from_url url self
           = (Raise (YouTubeError "Unable to fetch age restricted content."), s0)
         else
           match YouTube._get_json_data body with
           | Raise e => YouTube.from_url url self = (Raise e, s0)
           | Return json_data =>
               truthy json_data = false ->
               YouTube.from_url url self
               = (Raise (YouTubeError "Unable to extract json."), s0)
           end
     end.
Proof.
  intros s s0. split; [reflexivity|].
  assert (Hfrom : forall r s',
            YouTube._get_video_info s = (r, s') ->
            YouTube.from_url url self
            = (match r with Return _ => Return JNull | Raise e => Raise e end, s')).
  { intros r s' Hrun. unfold YouTube.from_url. rewrite !bind_update.
    unfold YouTube.bind. fold s. rewrite Hrun. now destruct r. }
  destruct (urlopen_page (Some url)) as [[body|]|e] eqn:Hpage.
  - destruct (Str.contains _ body) eqn:Hage.
    + now rewrite (Hfrom _ _ (get_video_info_age s body Hpage Hage)).
    + destruct (YouTube._get_json_data body) as [json_data|e] eqn:Hjson.
      * intros Hfalse.
        now rewrite (Hfrom _ _ (get_video_info_without_config s body json_data
                                  Hpage Hage Hjson Hfalse)).
      * now rewrite (Hfrom _ _ (get_video_info_json_raises s body e
                                  Hpage Hage Hjson)).
  - split; [now apply get_video_info_false|].
    now rewrite (Hfrom _ _ (get_video_info_false s Hpage)).
  - now rewrite (Hfrom _ _ (get_video_info_transport s e Hpage)).
Qed.

(** X16: a configuration object that lacks what the resolver reads ends
    the run with the exception of the failing access: without [args], or
    without a stream map in it, [AttributeError]; with a stream map that
    the decoder rejects, the decoder's exception; with a decoded stream map
    but without [assets], [KeyError], the title being set by then. *)
Theorem config_shape_errors self body fields :
  urlopen_page (YouTube._video_url self) = Return (Some body) ->
  Str.contains "og:restrictions:age" body = false ->
  YouTube._get_json_data body = Return (JObj fields) ->
  fields <> [] ->
  (assoc "args" fields = None ->
   YouTube._get_video_info self = (Raise AttributeError, cleared self))
  /\ (forall args, assoc "args" fields = Some (JObj args) ->
      assoc "url_encoded_fmt_stream_map" args = None ->
      YouTube._get_video_info self = (Raise AttributeError, cleared self))
  /\ (forall args text e, assoc "args" fields = Some (JObj args) ->
      assoc "url_encoded_fmt_stream_map" args = Some (JStr text) ->
      YouTube._parse_stream_map text = Raise e ->
      YouTube._get_video_info self = (Raise e, cleared self))
  /\ (forall args text stream_map, assoc "args" fields = Some (JObj args) ->
      assoc "url_encoded_fmt_stream_map" args = Some (JStr text) ->
      YouTube._parse_stream_map text = Return stream_map ->
      assoc "assets" fields = None ->
      YouTube._get_video_info self
      = (Raise KeyError,
         YouTube.set_title (default JNull (assoc "title" args)) (cleared self))).
Proof.
  intros Hpage Hage Hjson Hfields.
  assert (Htruthy : negb (truthy (JObj fields)) = false)
    by (destruct fields; [congruence | reflexivity]).
  unfold YouTube._get_video_info.
  rewrite !bind_update, bind_read, bind_lift.
  change (YouTube._video_url _) with (YouTube._video_url self).
  rewrite Hpage, Hage, bind_lift, Hjson, Htruthy, bind_lift.
  change (YouTube.set_videos [] (YouTube.set_title JNull self))
    with (cleared self).
  split; [|split; [|split]].
  - intros Hargs.
    replace (json_get (JObj fields) "args" (JObj [])) with (Return (JObj []))
      by (simpl; now rewrite Hargs).
    reflexivity.
  - intros args Hargs Hmap.
    replace (json_get (JObj fields) "args" (JObj [])) with (Return (JObj args))
      by (simpl; now rewrite Hargs).
    rewrite bind_lift.
    replace (json_get (JObj args) "url_encoded_fmt_stream_map" JNull)
      with (Return JNull) by (simpl; now rewrite Hmap).
    reflexivity.
  - intros args text e Hargs Hmap Hparse.
    replace (json_get (JObj fields) "args" (JObj [])) with (Return (JObj args))
      by (simpl; now rewrite Hargs).
    rewrite bind_lift.
    replace (json_get (JObj args) "url_encoded_fmt_stream_map" JNull)
      with (Return (JStr text)) by (simpl; now rewrite Hmap).
    rewrite bind_lift. unfold YouTube.as_text.
    now rewrite bind_lift, Hparse.
  - intros args text stream_map Hargs Hmap Hparse Hassets.
    replace (json_get (JObj fields) "args" (JObj [])) with (Return (JObj args))
      by (simpl; now rewrite Hargs).
    rewrite bind_lift.
    replace (json_get (JObj args) "url_encoded_fmt_stream_map" JNull)
      with (Return (JStr text)) by (simpl; now rewrite Hmap).
    rewrite bind_lift. unfold YouTube.as_text.
    rewrite bind_lift, Hparse. cbv iota beta.
    rewrite bind_lift. cbv iota beta.
    replace (json_get (JObj args) "title" JNull)
      with (Return (default JNull (assoc "title" args)))
      by (simpl; now destruct (assoc "title" args)).
    rewrite bind_lift. cbv iota beta.
    rewrite bind_update, bind_lift.
    replace (json_index (JObj fields) "assets") with (@Raise json KeyError)
      by (simpl; now rewrite Hassets).
    reflexivity.
Qed.

End EarlyExits.

Lemma config_shape_errors_witness :
  fst (@YouTube._get_video_info Cases.without_assets Demo.order YouTube.init)
  = Raise KeyError.
Proof.
  pose proof (@config_shape_errors Cases.without_assets Demo.order YouTube.init
                "ytplayer.config = {};" Cases.config_without_assets
                eq_refl eq_refl eq_refl ltac:(discriminate))
    as (_ & _ & _ & Hassets).
  destruct (@YouTube._parse_stream_map Cases.without_assets "itag=18&url=u")
    as [stream_map|e] eqn:Hparse; [|vm_compute in Hparse; discriminate].
  rewrite (Hassets _ "itag=18&url=u" stream_map eq_refl eq_refl Hparse eq_refl).
  reflexivity.
Defined.

(** ** What the decoder accepts and what it keeps *)

Section Acceptance.

Context `{Collaborators}.
Implicit Types (kv key text : string) (pairs : list string).
Implicit Types (d : gmap string (list string)).

Lemma for_each_accepted pairs d d' :
  YouTube.for_each YouTube.parse_pair d pairs = Return d' ->
  Forall (fun kv => count_char "=" kv = 1%nat) pairs.
Proof.
  revert d; induction pairs as [|p pairs IH]; intros d Hrun; [constructor|].
  simpl in Hrun.
  destruct (Nat.eq_dec (count_char "=" p) 1%nat) as [Hp|Hp];
    [|now rewrite parse_pair_other in Hrun].
  rewrite parse_pair_one in Hrun by exact Hp.
  constructor; [exact Hp | now apply (IH _ Hrun)].
Qed.

Lemma for_each_raises pairs d e :
  YouTube.for_each YouTube.parse_pair d pairs = Raise e -> e = ValueError.
Proof.
  revert d; induction pairs as [|p pairs IH]; intros d; [discriminate|].
  simpl. destruct (Nat.eq_dec (count_char "=" p) 1%nat) as [Hp|Hp].
  - rewrite parse_pair_one by exact Hp. apply IH.
  - rewrite parse_pair_other by exact Hp. now intros [= <-].
Qed.

Lemma split_trailing sep s :
  Str.split sep (s +:+ String sep EmptyString)
  = Str.split sep s ++ [EmptyString].
Proof.
  induction s as [|c s IH].
  - simpl. now rewrite Ascii.eqb_refl.
  - change (String c s +:+ String sep EmptyString)
      with (String c (s +:+ String sep EmptyString)).
    simpl. rewrite IH. destruct (Ascii.eqb c sep); [reflexivity|].
    destruct (Str.split sep s) as [|w ws] eqn:Hs; [|reflexivity].
    now apply split_not_nil in Hs.
Qed.

(** X17: the decoder accepts a text exactly when each of its pairs, cut at
    [,] and [&], holds a single [=]; the only exception it raises is
    [ValueError], and it raises it on the empty text and on a text that
    ends with a comma. *)
Theorem decoder_accepts_single_equals text :
  ((exists d, YouTube._parse_stream_map text = Return d)
   <-> Forall (fun kv => count_char "=" kv = 1%nat) (pairs_of text))
  /\ (forall e, YouTube._parse_stream_map text = Raise e -> e = ValueError)
  /\ YouTube._parse_stream_map EmptyString = Raise ValueError
  /\ YouTube._parse_stream_map (text +:+ ",") = Raise ValueError.
Proof.
  rewrite !parse_stream_map_pairs. repeat split.
  - intros [d Hd]. now apply (for_each_accepted _ _ _ Hd).
  - apply for_each_accepts.
  - intros e. apply for_each_raises.
  - apply (for_each_rejects EmptyString); [|discriminate].
    unfold pairs_of. rewrite split_trailing, map_app, concat_app.
    apply in_or_app. right. now left.
Qed.

(** X18: the decoded map depends on the pairs of the six known keys only,
    and for each key on their values in the order they occur: two accepted
    texts whose pairs agree in this have the same decoded map, whatever
    other keys they hold and however the pairs are spread over records. *)
Theorem decoded_map_ignores_unknown_keys text1 text2 d1 d2 :
  YouTube._parse_stream_map text1 = Return d1 ->
  YouTube._parse_stream_map text2 = Return d2 ->
  (forall key, key ∈ stream_map_keys ->
     map value_of (List.filter (carries key) (pairs_of text1))
     = map value_of (List.filter (carries key) (pairs_of text2))) ->
  d1 = d2.
Proof.
  rewrite !parse_stream_map_pairs. intros Hd1 Hd2 Hsame.
  apply map_eq. intros key.
  rewrite (for_each_collects _ _ _ Hd1 key), (for_each_collects _ _ _ Hd2 key).
  rewrite videoinfo0_lookup.
  destruct (decide (key ∈ stream_map_keys)) as [Hkey|Hkey]; [|reflexivity].
  simpl. f_equal.
  rewrite <- (map_map value_of unquote), <- (map_map value_of unquote (List.filter _ (pairs_of text2))).
  now rewrite (Hsame key Hkey).
Qed.

End Acceptance.

Lemma decoded_map_ignores_unknown_keys_witness :
  @YouTube._parse_stream_map Demo.standard "itag=18&foo=1&url=u,s=x"
  = @YouTube._parse_stream_map Demo.standard "url=u&s=x&itag=18".
Proof.
  destruct (@YouTube._parse_stream_map Demo.standard "itag=18&foo=1&url=u,s=x")
    as [d1|e] eqn:H1; [|vm_compute in H1; discriminate].
  destruct (@YouTube._parse_stream_map Demo.standard "url=u&s=x&itag=18")
    as [d2|e] eqn:H2; [|vm_compute in H2; discriminate].
  f_equal.
  apply (@decoded_map_ignores_unknown_keys Demo.standard _ _ d1 d2 H1 H2).
  intros key Hkey. unfold stream_map_keys in Hkey.
  repeat (apply elem_of_cons in Hkey as [->|Hkey]; [vm_compute; reflexivity|]).
  now apply elem_of_nil in Hkey.
Defined.

(** ** The file name of the resolved streams *)

Section Names.

Context `{Collaborators} `{Video.Order}.
Implicit Types (self s : YouTube.state) (url name : string).
Implicit Types (stream_map : gmap string (list string)).

Lemma get_cipher_keeps_name signature url s r s' :
  YouTube._get_cipher signature url s = (r, s') ->
  YouTube._filename s' = YouTube._filename s
  /\ YouTube.title s' = YouTube.title s
  /\ YouTube.videos s' = YouTube.videos s.
Proof.
  unfold YouTube._get_cipher, YouTube.bind, YouTube.read, YouTube.ret,
    YouTube.raise, YouTube.lift, YouTube.update; simpl.
  destruct (YouTube.not_ (YouTube._js_code s)); simpl.
  - destruct (urlopen_script url) as [code|e]; simpl.
    + destruct (YouTube.cipher_attempt code signature); intros [= _ <-];
        now repeat split.
    + intros [= _ <-]. now repeat split.
  - destruct (YouTube.cipher_attempt _ signature); intros [= _ <-];
      now repeat split.
Qed.

Lemma complete_url_keeps_name stream_map js_url i url s r s' :
  complete_url stream_map js_url i url s = (r, s') ->
  YouTube._filename s' = YouTube._filename s
  /\ YouTube.title s' = YouTube.title s
  /\ YouTube.videos s' = YouTube.videos s.
Proof.
  unfold complete_url. destruct (negb _).
  - unfold YouTube.bind at 1, YouTube.lift at 1.
    destruct (YouTube.dict_index stream_map "s") as [sigs|e];
      [|intros [= _ <-]; now repeat split].
    unfold YouTube.bind at 1, YouTube.lift at 1.
    destruct (YouTube.list_index sigs i) as [sig|e];
      [|intros [= _ <-]; now repeat split].
    unfold YouTube.bind at 1.
    destruct (YouTube._get_cipher sig js_url s) as [[signature|e] s1] eqn:Hc;
      apply get_cipher_keeps_name in Hc; now intros [= _ <-].
  - intros [= _ <-]. now repeat split.
Qed.

Lemma filename_named s r s' :
  YouTube.filename s = (r, s') ->
  named_after_title s ->
  named_after_title s'
  /\ YouTube.title s' = YouTube.title s
  /\ YouTube.videos s' = YouTube.videos s
  /\ forall name, r = Return name -> safe_filename (YouTube.title s) = Return name.
Proof.
  unfold YouTube.filename, YouTube.bind, YouTube.read, YouTube.ret,
    YouTube.lift, YouTube.update, named_after_title; simpl.
  destruct (YouTube.not_ (YouTube._filename s)) eqn:Hnot; simpl.
  - destruct (safe_filename (YouTube.title s)) as [n|e] eqn:Hsafe;
      intros [= <- <-] Hnamed; simpl.
    + repeat split; [|now intros name [= <-]].
      now intros name [= <-] _.
    + repeat split; [rewrite Hsafe; exact Hnamed | discriminate].
  - intros [= <- <-] Hnamed. repeat split; [exact Hnamed|].
    intros name [= Hname].
    destruct (YouTube._filename s) as [n|]; [|discriminate].
    simpl in *. subst n. now apply Hnamed.
Qed.

(** A turn of the loop names the stream it appends after the title. *)
Lemma resolve_one_names stream_map js_url i url s r s' :
  YouTube.resolve_one stream_map js_url i url s = (r, s') ->
  named_after_title s ->
  Forall (fun v => safe_filename (YouTube.title s) = Return (Video.filename v))
    (YouTube.videos s) ->
  named_after_title s'
  /\ YouTube.title s' = YouTube.title s
  /\ Forall (fun v => safe_filename (YouTube.title s) = Return (Video.filename v))
       (YouTube.videos s').
Proof.
  intros Hrun Hnamed Hall. revert Hrun. unfold YouTube.resolve_one.
  destruct (_extract_fmt url) as [[fmt data]|] eqn:Hfmt.
  2:{ intros [= _ <-]. now repeat split. }
  change (YouTube.bind ?m ?k s)
    with (YouTube.bind (complete_url stream_map js_url i url) k s).
  unfold YouTube.bind at 1.
  destruct (complete_url stream_map js_url i url s) as [[u|e] s1] eqn:Hurl;
    apply complete_url_keeps_name in Hurl as (Hn1 & Ht1 & Hv1).
  2:{ intros [= _ <-]. unfold named_after_title. rewrite Hn1, Ht1, Hv1.
      now repeat split. }
  assert (Hnamed1 : named_after_title s1)
    by (unfold named_after_title; now rewrite Hn1, Ht1).
  unfold YouTube.bind at 1.
  destruct (YouTube.filename s1) as [[name|e] s2] eqn:Hname;
    apply (fun Hf => filename_named _ _ _ Hf Hnamed1) in Hname
      as (Hnamed2 & Ht2 & Hv2 & Hsafe).
  2:{ intros [= _ <-]. rewrite Ht2, Ht1, Hv2, Hv1. now repeat split. }
  specialize (Hsafe name eq_refl). rewrite Ht1 in Hsafe.
  unfold YouTube.bind at 1, YouTube.lift at 1.
  destruct data as [data|]; simpl Video.new; cbv iota beta.
  2:{ intros [= _ <-]. rewrite Ht2, Ht1, Hv2, Hv1. now repeat split. }
  unfold YouTube.bind, YouTube.read, YouTube.update; simpl.
  intros [= _ <-]. simpl.
  split; [|split; [congruence|]].
  - exact Hnamed2.
  - rewrite Hv2, Hv1. apply Forall_app. split; [exact Hall|].
    now repeat constructor.
Qed.

Lemma resolve_from_names stream_map js_url urls :
  forall i s r s',
    YouTube.resolve_from stream_map js_url i urls s = (r, s') ->
    named_after_title s ->
    Forall (fun v => safe_filename (YouTube.title s) = Return (Video.filename v))
      (YouTube.videos s) ->
    YouTube.title s' = YouTube.title s
    /\ Forall (fun v => safe_filename (YouTube.title s) = Return (Video.filename v))
         (YouTube.videos s').
Proof.
  induction urls as [|url urls IH]; intros i s r s'.
  - now intros [= _ <-].
  - simpl YouTube.resolve_from. unfold YouTube.bind at 1.
    destruct (YouTube.resolve_one stream_map js_url i url s)
      as [[u|e] s1] eqn:Hone; intros Hrun Hnamed Hall;
      apply (fun Ho => resolve_one_names _ _ _ _ _ _ _ Ho Hnamed Hall) in Hone
        as (Hnamed1 & Ht1 & Hall1).
    + rewrite <- Ht1 in Hall1.
      destruct (IH _ _ _ _ Hrun Hnamed1 Hall1) as [Ht Hall'].
      rewrite Ht1 in Ht, Hall'. now split.
    + injection Hrun as _ <-. now split.
Qed.

(** X19: [from_url] names every stream it resolves after the page it
    resolved: whatever the outcome, the file name of each stream in the
    list is what [safe_filename] returns for the title the instance now
    holds, not a name kept from an earlier page. *)
Theorem streams_are_named_after_title url self r self' v :
  YouTube.from_url url self = (r, self') ->
  In v (YouTube.videos self') ->
  safe_filename (YouTube.title self') = Return (Video.filename v).
Proof.
  unfold YouTube.from_url. rewrite !bind_update. intros Hfrom Hv.
  unfold YouTube.bind at 1 in Hfrom.
  destruct (YouTube._get_video_info _) as [r0 s1] eqn:Hrun.
  assert (s1 = self') as -> by (destruct r0; now injection Hfrom).
  clear Hfrom.
  apply get_video_info_cases in Hrun
    as [[Hvs _]|(sm & js & s0 & r' & Hvs & _ & Hname & Hloop)].
  - rewrite Hvs in Hv. destruct Hv.
  - revert Hloop. unfold YouTube.resolve_streams.
    unfold YouTube.bind at 1, YouTube.lift at 1.
    destruct (YouTube.dict_index sm "url") as [urls|e].
    2:{ intros [= _ <-]. rewrite Hvs in Hv. destruct Hv. }
    unfold YouTube.bind at 1.
    destruct (YouTube.resolve_from sm js 0 urls s0) as [[u|e] s1] eqn:Hfrom;
      apply resolve_from_names in Hfrom as [Ht Hall];
      try (intros name Hn; rewrite Hname in Hn; discriminate);
      try (rewrite Hvs; constructor).
    + unfold YouTube.bind, YouTube.read, YouTube.update. intros [= _ <-].
      simpl in *. rewrite Ht.
      apply (Permutation_Forall (sort_permutation _)) in Hall.
      rewrite Forall_forall in Hall. apply Hall. now apply list_elem_of_In.
    + intros [= _ <-]. rewrite Ht.
      rewrite Forall_forall in Hall. apply Hall. now apply list_elem_of_In.
Qed.

End Names.

Lemma streams_are_named_after_title_witness :
  @safe_filename Demo.standard (JStr "demo") = Return "demo".
Proof.
  apply (@streams_are_named_after_title Demo.standard Demo.order
           "http://yt/watch?v=1"
           (YouTube.set_filename_attr (Some "earlier") YouTube.init)
           (Return JNull)
           (snd (@YouTube.from_url Demo.standard Demo.order
                   "http://yt/watch?v=1"
                   (YouTube.set_filename_attr (Some "earlier") YouTube.init)))
           (Video.mk "http://h/v?itag=22&signature=AB" "demo" "mp4" "720p"
              "H.264" "High" "2-2.9" "AAC" "192")).
  - vm_compute. reflexivity.
  - vm_compute. left; reflexivity.
Defined.

(** ** The order of the list a completed resolution leaves *)

Section SortedResolution.

Context `{Collaborators} `{Video.Order}.
Implicit Types (self s : YouTube.state) (url : string) (urls : list string).
Implicit Types (stream_map : gmap string (list string)).

(** A completed URL is the URL or the URL with a signature appended. *)
Lemma complete_url_result stream_map js_url i url s u s' :
  complete_url stream_map js_url i url s = (Return u, s') ->
  u = url \/ exists signature, u = url +:+ "&signature=" +:+ signature.
Proof.
  unfold complete_url. destruct (negb _).
  - unfold YouTube.bind at 1, YouTube.lift at 1.
    destruct (YouTube.dict_index stream_map "s") as [sigs|e]; [|discriminate].
    unfold YouTube.bind at 1, YouTube.lift at 1.
    destruct (YouTube.list_index sigs i) as [sig|e]; [|discriminate].
    unfold YouTube.bind at 1.
    destruct (YouTube._get_cipher sig js_url s) as [[signature|e] s1];
      [|discriminate].
    intros [= <- _]. right. now exists signature.
  - intros [= <- _]. now left.
Qed.

Lemma new_video_row text fmt data u name v :
  _extract_fmt text = Some (fmt, Some data) ->
  Video.new u name (Some data) = Return v ->
  Video.url v = u
  /\ exists digits,
       Re.findall_itag text = [digits]
       /\ YT_ENCODING !! int digits = Some (descriptor v).
Proof.
  unfold _extract_fmt.
  destruct (Re.findall_itag text) as [|digits [|more rest]]; try discriminate.
  destruct (YT_ENCODING !! int digits) as [row|] eqn:Hrow; [|discriminate].
  destruct (catalog_row _ _ Hrow) as (a & b & c & d & e & f & g & ->).
  intros [= <- <-] [= <-]. split; [reflexivity|].
  exists digits. split; [reflexivity|]. rewrite Hrow. reflexivity.
Qed.

(** A turn of the loop that returns has skipped the URL or appended the
    stream that comes from it. *)
Lemma resolve_one_origin stream_map js_url i url s u s' :
  YouTube.resolve_one stream_map js_url i url s = (Return u, s') ->
  (single_itag url = false /\ YouTube.videos s' = YouTube.videos s)
  \/ (single_itag url = true
      /\ exists v, YouTube.videos s' = YouTube.videos s ++ [v]
                   /\ came_from url v).
Proof.
  unfold YouTube.resolve_one, single_itag.
  destruct (_extract_fmt url) as [[fmt data]|] eqn:Hfmt.
  2:{ intros [= _ <-]. now left. }
  change (YouTube.bind ?m ?k s)
    with (YouTube.bind (complete_url stream_map js_url i url) k s).
  unfold YouTube.bind at 1.
  destruct (complete_url stream_map js_url i url s) as [[u'|e] s1] eqn:Hurl;
    [|discriminate].
  pose proof (complete_url_result _ _ _ _ _ _ _ Hurl) as Hu.
  apply complete_url_keeps_name in Hurl as (_ & _ & Hv1).
  unfold YouTube.bind at 1.
  destruct (YouTube.filename s1) as [[name|e] s2] eqn:Hname; [|discriminate].
  apply filename_frame in Hname as (Hv2 & _ & _).
  unfold YouTube.bind at 1, YouTube.lift at 1.
  destruct data as [data|]; simpl Video.new; cbv iota beta; [|discriminate].
  destruct (new_video_row url fmt data u' name _ Hfmt eq_refl)
    as (Hvu & digits & Hdigits & Hrow).
  unfold YouTube.bind, YouTube.read, YouTube.update; simpl.
  intros [= _ <-]. simpl. right. split; [reflexivity|].
  eexists. rewrite Hv2, Hv1. split; [reflexivity|].
  split; [exact Hu | now exists digits].
Qed.

(** The loop appends, in the order of the URLs, one stream for each URL
    that holds a single [itag]. *)
Lemma resolve_from_origin stream_map js_url urls :
  forall i s u s',
    YouTube.resolve_from stream_map js_url i urls s = (Return u, s') ->
    exists vs, YouTube.videos s' = YouTube.videos s ++ vs
               /\ Forall2 came_from (List.filter single_itag urls) vs.
Proof.
  induction urls as [|url urls IH]; intros i s u s'.
  - intros [= _ <-]. exists []. rewrite app_nil_r.
    split; [reflexivity | constructor].
  - simpl YouTube.resolve_from. unfold YouTube.bind at 1.
    destruct (YouTube.resolve_one stream_map js_url i url s)
      as [[u1|e] s1] eqn:Hone; [|discriminate].
    intros Hrest. apply IH in Hrest as (vs & Hvs & Hall).
    apply resolve_one_origin in Hone
      as [(Hskip & Hv1)|(Htake & v & Hv1 & Hfrom)]; simpl List.filter.
    + rewrite Hskip. exists vs. now rewrite Hvs, Hv1.
    + rewrite Htake. exists (v :: vs). rewrite Hvs, Hv1, <- app_assoc.
      split; [reflexivity | now constructor].
Qed.

(** A run that returns has either met a response that tests false, or
    has decoded the stream map of the page and completed the loop over it
    on an empty stream list. *)
Lemma get_video_info_completes self r self' :
  YouTube._get_video_info self = (Return r, self') ->
  (r = JBool false
   /\ urlopen_page (YouTube._video_url self) = Return None
   /\ YouTube.videos self' = [])
  \/ (r = JNull
      /\ exists stream_map js_url s0,
           page_stream_map self stream_map
           /\ YouTube.videos s0 = []
           /\ YouTube.resolve_streams stream_map js_url s0 = (Return tt, self')).
Proof.
  unfold YouTube._get_video_info.
  rewrite !bind_update, bind_read, bind_lift.
  change (YouTube._video_url _) with (YouTube._video_url self).
  destruct (urlopen_page (YouTube._video_url self)) as [[body|]|e] eqn:Hpage;
    [| intros [= <- <-]; left; now repeat split | discriminate].
  destruct (Str.contains _ body); [discriminate|].
  rewrite bind_lift.
  destruct (YouTube._get_json_data body) as [json_data|e] eqn:Hjson;
    [|discriminate].
  destruct (negb (truthy json_data)); [discriminate|].
  rewrite bind_lift.
  destruct (json_get json_data "args" (JObj [])) as [args|e] eqn:Hargs;
    [|discriminate].
  rewrite bind_lift.
  destruct (json_get args "url_encoded_fmt_stream_map" JNull)
    as [encoded|e] eqn:Hencoded; [|discriminate].
  rewrite bind_lift.
  destruct (YouTube.as_text encoded) as [text|e] eqn:Htext; [|discriminate].
  rewrite bind_lift.
  destruct (YouTube._parse_stream_map text) as [stream_map|e] eqn:Hparse;
    [|discriminate].
  rewrite bind_lift. cbv iota beta. rewrite bind_lift.
  destruct (json_get args "title" JNull) as [t|e]; [|discriminate].
  rewrite bind_update, bind_lift.
  destruct (json_index json_data "assets") as [assets|e]; [|discriminate].
  rewrite bind_lift.
  destruct (json_index assets "js") as [js|e]; [|discriminate].
  unfold YouTube.bind, YouTube.ret.
  match goal with
  | |- context [YouTube.resolve_streams ?sm ?js ?s] =>
      destruct (YouTube.resolve_streams sm js s) as [[[]|e] s1] eqn:Hloop;
      [|discriminate];
      intros [= <- <-]; right; split; [reflexivity|]; exists sm, js, s
  end.
  split; [|split; [reflexivity | exact Hloop]].
  exists body, json_data, args, text.
  destruct encoded; try discriminate. injection Htext as ->.
  now repeat split.
Qed.

(** C7: when the resolution completes, the stream list it leaves is the
    stable sort of the streams the loop resolved, taken in the order of
    the URLs of the page's stream map, one for each URL that holds a single
    [itag].  The list is ordered by numeric resolution height, larger
    first, and within one height by the rank of the container extension;
    it holds the resolved streams, each as often as it was resolved;
    streams that tie on both keys keep the order of their URLs; and no
    stream is higher than the first. *)
Theorem resolved_list_is_sorted self r self' :
  YouTube._get_video_info self = (Return r, self') ->
  exists resolved,
    ((r = JBool false
      /\ urlopen_page (YouTube._video_url self) = Return None
      /\ resolved = [])
     \/ (r = JNull
         /\ exists stream_map urls,
              page_stream_map self stream_map
              /\ stream_map !! "url" = Some urls
              /\ Forall2 came_from (List.filter single_itag urls) resolved))
    /\ YouTube.videos self' = Video.sort resolved
    /\ StronglySorted in_order (YouTube.videos self')
    /\ Permutation resolved (YouTube.videos self')
    /\ (forall a, List.filter (ties a) (YouTube.videos self')
                  = List.filter (ties a) resolved)
    /\ (forall best rest w,
          YouTube.videos self' = best :: rest -> In w (YouTube.videos self') ->
          (Video.height (Video.resolution w)
           <= Video.height (Video.resolution best))%nat).
Proof.
  intros Hrun.
  assert (Hresolved : exists resolved,
    ((r = JBool false
      /\ urlopen_page (YouTube._video_url self) = Return None
      /\ resolved = [])
     \/ (r = JNull
         /\ exists stream_map urls,
              page_stream_map self stream_map
              /\ stream_map !! "url" = Some urls
              /\ Forall2 came_from (List.filter single_itag urls) resolved))
    /\ YouTube.videos self' = Video.sort resolved).
  { apply get_video_info_completes in Hrun
      as [(-> & Hpage & Hvs)|(-> & sm & js & s0 & Hmap & Hvs & Hloop)].
    - exists []. split; [now left | exact Hvs].
    - revert Hloop. unfold YouTube.resolve_streams, YouTube.dict_index.
      unfold YouTube.bind at 1, YouTube.lift at 1.
      destruct (sm !! "url") as [urls|] eqn:Hurls; [|discriminate].
      unfold YouTube.bind at 1.
      destruct (YouTube.resolve_from sm js 0 urls s0) as [[u|e] s1] eqn:Hfrom;
        [|discriminate].
      apply resolve_from_origin in Hfrom as (vs & Hvs1 & Hall).
      rewrite Hvs in Hvs1. simpl in Hvs1.
      unfold YouTube.bind, YouTube.read, YouTube.update. intros [= <-]. simpl.
      exists vs. rewrite Hvs1. split; [|reflexivity].
      right. split; [reflexivity|]. now exists sm, urls. }
  destruct Hresolved as (resolved & Horigin & Hsort).
  exists resolved.
  assert (Hsorted : StronglySorted in_order (YouTube.videos self'))
    by (rewrite Hsort; apply sort_sorted).
  split; [exact Horigin|]. split; [exact Hsort|]. split; [exact Hsorted|].
  rewrite Hsort. split; [apply sort_permutation|].
  split; [intros a; apply sort_stable|].
  intros best rest w Hbest Hw. rewrite <- Hsort in *.
  rewrite Hbest in Hsorted, Hw.
  now apply (sorted_head_best best rest w).
Qed.

End SortedResolution.

Lemma resolved_list_is_sorted_witness :
  StronglySorted (@in_order Demo.order)
    (YouTube.videos
       (snd (@YouTube._get_video_info Cases.low_first Demo.order YouTube.init)))
  /\ length (YouTube.videos
               (snd (@YouTube._get_video_info Cases.low_first Demo.order
                       YouTube.init))) = 3%nat.
Proof.
  destruct (@resolved_list_is_sorted Cases.low_first Demo.order YouTube.init
              JNull
              (snd (@YouTube._get_video_info Cases.low_first Demo.order
                      YouTube.init))
              ltac:(vm_compute; reflexivity))
    as (resolved & _ & _ & Hsorted & _).
  split; [exact Hsorted | vm_compute; reflexivity].
Defined.

(** The page lists 360p, 720p and a second 360p stream of the same
    extension: the 720p stream comes first and the two 360p streams keep
    their order. *)
Example resolve_low_first :
  map Video.url
    (YouTube.videos
       (snd (@YouTube.from_url Cases.low_first Demo.order "http://yt/watch?v=1"
               YouTube.init)))
  = [ "http://h/b?itag=22&signature=CD"; "http://h/a?itag=18&signature=AB";
      "http://h/c?itag=82&signature=EF" ].
Proof. vm_compute. reflexivity. Qed.
